(** * jquery.timer 1.0.3: the Timer state machine and its time accounting

    A shallow embedding of [build/jquery.timer-1.0.3.js].  The timer object
    and the part of the host event loop it talks to ([setTimeout],
    [setInterval], [clearTimeout], [clearInterval], [Date]) are one explicit
    state, the [World]; every method of [Timer.prototype] is a function on
    worlds.

    Modelling conventions.
    - Times and delays are integer milliseconds ([Z]): the statements
      about the wait of a scheduled task are statements about integer
      delays.  The quotient inside [Math.ceil] is taken in [Q], so the
      ceiling is the exact one.
    - The fire count is a JavaScript number ([Num]): an integer, a finite
      number given as a fraction, one of the two infinities or NaN;
      comparisons with NaN are false and fractions are exact.
    - The wall clock is a field of the world.  [stop], [pause], [play] and
      the two handlers read it where the code evaluates [new Date()].  In
      the events of the event loop (a call of [play], [start], [setDelay]
      or [once], or a firing with everything its callback does) every such
      read returns the same value: the clock does not move during the
      turn, and moves between turns by [advance].  [play_at], [start_at],
      [setDelay_at] and [once_at] are the methods that read the clock
      twice, with the value of the second read given apart; [play],
      [start], [setDelay] and [once] are these with the two values equal.
      [stop], [pause] and [toggle] read the clock once.
    - The scheduler keeps the list of scheduled tasks.  A task remembers
      whether it came from [setTimeout] or [setInterval] and its delay; the
      two closures created by [play] are the only handlers there are, so the
      kind of a task determines its handler.
    - The callback observes the timer through its getters ([View]) and
      answers with the calls it makes on [this].  [log] is a ghost field:
      the value of [getCount()] seen by each invocation of the callback. *)

From Stdlib Require Import ZArith QArith Qround List Bool Lia.
Import ListNotations.
Local Open Scope Z_scope.

(** ** Numbers *)

Inductive Num : Type :=
| Fin (z : Z)      (* an integer *)
| Rat (q : Q)      (* a finite number given as a fraction *)
| PInf
| NInf
| NaN.

(** [m > 0] *)
Definition gt0 (m : Num) : bool :=
  match m with
  | Fin z => 0 <? z
  | Rat q => 0 <? Qnum q
  | PInf => true
  | NInf | NaN => false
  end.

(** [m <= 0] *)
Definition le0 (m : Num) : bool :=
  match m with
  | Fin z => z <=? 0
  | Rat q => Qnum q <=? 0
  | NInf => true
  | PInf | NaN => false
  end.

(** [m < 0] *)
Definition lt0 (m : Num) : bool :=
  match m with
  | Fin z => z <? 0
  | Rat q => Qnum q <? 0
  | NInf => true
  | PInf | NaN => false
  end.

(** [m--] *)
Definition decr (m : Num) : Num :=
  match m with
  | Fin z => Fin (z - 1)
  | Rat q => Rat (q - 1)%Q
  | other => other
  end.

(** The number is an integer, an infinity or NaN: not given as a
    fraction. *)
Definition integral (m : Num) : Prop :=
  match m with
  | Rat _ => False
  | _ => True
  end.

(** [Math.ceil(a / d)] for integers [a] and [d]. *)
Definition Math_ceil_div (a d : Z) : Z :=
  Qceiling (inject_Z a / inject_Z d).

(** ** The timer object *)

Inductive State : Type := STOP | PLAY | PAUSE.

Definition State_eqb (a b : State) : bool :=
  match a, b with
  | STOP, STOP | PLAY, PLAY | PAUSE, PAUSE => true
  | _, _ => false
  end.

(** The public methods that change the timer. *)
Inductive Call : Type :=
| CStart (n : option Num)   (* start(n); [None] is start() *)
| CStop
| CPlay
| CPause
| CToggle
| CSetDelay (d : Z)
| COnce.

(** What a callback can read from [this]. *)
Record View : Type := mkView {
  v_count : Z;
  v_delay : Z;
  v_state : State;
  v_currentTime : Z;
  v_elapsedTime : Z;
  v_remainingTime : Z
}.

Record Timer : Type := mkTimer {
  _delay : Z;
  _callback : View -> list Call;
  _maxCount : Num;
  _count : Z;
  _pausedTime : Z;
  _currentTime : Z;
  _lastTime : Z;
  _interval : option nat;      (* [None] is null *)
  _state : State
}.

(** ** The host: clock and scheduler *)

Inductive Kind : Type := Timeout | Interval.

Record Task : Type := mkTask {
  tid : nat;
  kind : Kind;
  ms : Z
}.

Record World : Type := mkWorld {
  self : Timer;
  now : Z;                (* (new Date()).getTime() *)
  next_id : nat;          (* the next handle the scheduler gives out *)
  tasks : list Task;      (* scheduled and not yet cancelled *)
  log : list Z            (* ghost: getCount() at each callback invocation *)
}.

Definition with_self (f : Timer -> Timer) (w : World) : World :=
  mkWorld (f (self w)) (now w) (next_id w) (tasks w) (log w).

Definition set_delay (d : Z) (t : Timer) : Timer :=
  mkTimer d (_callback t) (_maxCount t) (_count t) (_pausedTime t)
          (_currentTime t) (_lastTime t) (_interval t) (_state t).

Definition set_maxCount (m : Num) (t : Timer) : Timer :=
  mkTimer (_delay t) (_callback t) m (_count t) (_pausedTime t)
          (_currentTime t) (_lastTime t) (_interval t) (_state t).

Definition set_count (c : Z) (t : Timer) : Timer :=
  mkTimer (_delay t) (_callback t) (_maxCount t) c (_pausedTime t)
          (_currentTime t) (_lastTime t) (_interval t) (_state t).

Definition set_pausedTime (p : Z) (t : Timer) : Timer :=
  mkTimer (_delay t) (_callback t) (_maxCount t) (_count t) p
          (_currentTime t) (_lastTime t) (_interval t) (_state t).

Definition set_currentTime (c : Z) (t : Timer) : Timer :=
  mkTimer (_delay t) (_callback t) (_maxCount t) (_count t) (_pausedTime t)
          c (_lastTime t) (_interval t) (_state t).

Definition set_lastTime (l : Z) (t : Timer) : Timer :=
  mkTimer (_delay t) (_callback t) (_maxCount t) (_count t) (_pausedTime t)
          (_currentTime t) l (_interval t) (_state t).

Definition set_interval (h : option nat) (t : Timer) : Timer :=
  mkTimer (_delay t) (_callback t) (_maxCount t) (_count t) (_pausedTime t)
          (_currentTime t) (_lastTime t) h (_state t).

Definition set_state (s : State) (t : Timer) : Timer :=
  mkTimer (_delay t) (_callback t) (_maxCount t) (_count t) (_pausedTime t)
          (_currentTime t) (_lastTime t) (_interval t) s.

(** [clearTimeout(h)] and [clearInterval(h)]: both cancel whatever task has
    the handle, and do nothing for null or for a handle that is not
    scheduled. *)
Definition clear (h : option nat) (w : World) : World :=
  match h with
  | None => w
  | Some i =>
      mkWorld (self w) (now w) (next_id w)
              (filter (fun t => negb (Nat.eqb (tid t) i)) (tasks w)) (log w)
  end.

(** [setTimeout(handler, d)] and [setInterval(handler, d)]: the new handle
    and the world with the task scheduled. *)
Definition schedule (k : Kind) (d : Z) (w : World) : nat * World :=
  (next_id w,
   mkWorld (self w) (now w) (S (next_id w))
           (tasks w ++ [mkTask (next_id w) k d]) (log w)).

(** ** Timer and Timer.prototype *)

(** [new Timer(delay, callback)] at clock [t0], in a host with nothing
    scheduled. *)
Definition new (delay : Z) (callback : View -> list Call) (t0 : Z) : World :=
  mkWorld (mkTimer delay callback PInf 0 0 t0 t0 None STOP) t0 1%nat [] [].

Definition getCount (w : World) : Z := _count (self w).
Definition getDelay (w : World) : Z := _delay (self w).
Definition getState (w : World) : State := _state (self w).
Definition isPaused (w : World) : bool := State_eqb (getState w) PAUSE.
Definition isRunning (w : World) : bool := State_eqb (getState w) PLAY.
Definition isStopped (w : World) : bool := State_eqb (getState w) STOP.

Definition getCurrentTime (w : World) : Z :=
  if isRunning w then now w - _pausedTime (self w) else _currentTime (self w).

Definition getElapsedTime (w : World) : Z :=
  getCurrentTime w - _lastTime (self w).

Definition getRemainingTime (w : World) : Z :=
  let t := getElapsedTime w in
  if 0 <? _delay (self w)
  then Math_ceil_div (t + 1) (_delay (self w)) * _delay (self w) - t
  else 0.

Definition stop (w : World) : World :=
  let w := clear (_interval (self w)) w in
  let w := clear (_interval (self w)) w in
  let w := with_self (set_count 0) w in
  let w := with_self (set_pausedTime 0) w in
  let w := with_self (set_currentTime (now w)) w in
  let w := with_self (set_lastTime (_currentTime (self w))) w in
  with_self (set_state STOP) w.

Definition pause (w : World) : World :=
  let w := clear (_interval (self w)) w in
  let w := clear (_interval (self w)) w in
  let w := with_self (set_currentTime (getCurrentTime w)) w in
  with_self (set_state PAUSE) w.

Definition play (w : World) : World :=
  if gt0 (_maxCount (self w)) then
    let w := pause w in
    let (h, w) := schedule Timeout (getRemainingTime w) w in
    let w := with_self (set_interval (Some h)) w in
    let w := with_self (set_pausedTime (now w - _currentTime (self w))) w in
    with_self (set_state PLAY) w
  else stop w.

Definition start (n : option Num) (w : World) : World :=
  let w := with_self (set_maxCount (match n with
                                    | None => PInf
                                    | Some m => m
                                    end)) w in
  let w := stop w in
  play w.

Definition setDelay (d : Z) (w : World) : World :=
  let w := with_self (set_delay d) w in
  if isRunning w then play w else w.

Definition toggle (w : World) : World :=
  if isRunning w then pause w else play w.

Definition once (w : World) : World := start (Some (Fin 1)) w.

Definition exec (c : Call) (w : World) : World :=
  match c with
  | CStart n => start n w
  | CStop => stop w
  | CPlay => play w
  | CPause => pause w
  | CToggle => toggle w
  | CSetDelay d => setDelay d w
  | COnce => once w
  end.

(** ** The methods that read the clock twice *)

(** The clock has moved on to [t]. *)
Definition set_now (t : Z) (w : World) : World :=
  mkWorld (self w) t (next_id w) (tasks w) (log w).

(** [play()] when the clock reads [now w] on entry and [t2] where
    [_pausedTime] is assigned.  On a running timer the code evaluates
    [new Date()] in [pause()] and again in that assignment. *)
Definition play_at (t2 : Z) (w : World) : World :=
  if gt0 (_maxCount (self w)) then
    let w := pause w in
    let (h, w) := schedule Timeout (getRemainingTime w) w in
    let w := with_self (set_interval (Some h)) w in
    let w := set_now t2 w in
    let w := with_self (set_pausedTime (now w - _currentTime (self w))) w in
    with_self (set_state PLAY) w
  else stop w.

(** [start(n)] when the clock reads [now w] in [stop()] and [t2] in
    [play()].  After [stop()] the timer is not running, so [play()]
    evaluates [new Date()] once: [pause()] does not read the clock. *)
Definition start_at (t2 : Z) (n : option Num) (w : World) : World :=
  let w := with_self (set_maxCount (match n with
                                    | None => PInf
                                    | Some m => m
                                    end)) w in
  let w := stop w in
  let w := set_now t2 w in
  play_at t2 w.


(** [setDelay(d)] when the clock reads [now w] on entry and [t2] where
    [play()] assigns [_pausedTime]. *)
Definition setDelay_at (t2 : Z) (d : Z) (w : World) : World :=
  let w := with_self (set_delay d) w in
  if isRunning w then play_at t2 w else w.

(** ** The two scheduled closures of [play] *)

Definition view (w : World) : View :=
  mkView (getCount w) (getDelay w) (getState w)
         (getCurrentTime w) (getElapsedTime w) (getRemainingTime w).

(** [self._callback.apply(self)] *)
Definition invoke (w : World) : World :=
  let calls := _callback (self w) (view w) in
  let w := mkWorld (self w) (now w) (next_id w) (tasks w)
                   (log w ++ [getCount w]) in
  fold_left (fun w c => exec c w) calls w.

(** The first three statements of both closures. *)
Definition tick (w : World) : World :=
  let w := with_self (set_lastTime (getCurrentTime w)) w in
  let w := with_self (set_count (_count (self w) + 1)) w in
  invoke w.

(** The closure given to [setTimeout]. *)
Definition on_timeout (w : World) : World :=
  let w := tick w in
  if isRunning w then
    let w := with_self (set_maxCount (decr (_maxCount (self w)))) w in
    if gt0 (_maxCount (self w)) then
      let (h, w) := schedule Interval (_delay (self w)) w in
      with_self (set_interval (Some h)) w
    else stop w
  else w.

(** The closure given to [setInterval]. *)
Definition on_interval (w : World) : World :=
  let w := tick w in
  let w := with_self (set_maxCount (decr (_maxCount (self w)))) w in
  if le0 (_maxCount (self w)) then stop w else w.

(** ** The event loop *)

Definition find_task (h : nat) (w : World) : option Task :=
  find (fun t => Nat.eqb (tid t) h) (tasks w).

(** The scheduler runs the task with handle [h]; [None] when no such task is
    scheduled.  A timeout is gone once it has run, an interval stays. *)
Definition fire (h : nat) (w : World) : option World :=
  match find_task h w with
  | None => None
  | Some t =>
      match kind t with
      | Timeout => Some (on_timeout (clear (Some h) w))
      | Interval => Some (on_interval w)
      end
  end.

(** Time passes between two turns. *)
Definition advance (dt : Z) (w : World) : World :=
  mkWorld (self w) (now w + dt) (next_id w) (tasks w) (log w).

Inductive Event : Type :=
| Advance (dt : Z)
| Fire (h : nat)
| Do (c : Call).

Definition step (e : Event) (w : World) : option World :=
  match e with
  | Advance dt => Some (advance dt w)
  | Fire h => fire h w
  | Do c => Some (exec c w)
  end.

Fixpoint run (es : list Event) (w : World) : option World :=
  match es with
  | [] => Some w
  | e :: es =>
      match step e w with
      | None => None
      | Some w' => run es w'
      end
  end.

(** The task the timer holds the handle of runs, [dt] ms after the last
    turn. *)
Definition fire_next (dt : Z) (w : World) : option World :=
  match _interval (self w) with
  | None => None
  | Some h => fire h (advance dt w)
  end.

Fixpoint fires (dts : list Z) (w : World) : option World :=
  match dts with
  | [] => Some w
  | dt :: dts =>
      match fire_next dt w with
      | None => None
      | Some w' => fires dts w'
      end
  end.

(** A callback that does not call back into the timer. *)
Definition quiet : View -> list Call := fun _ => [].

Definition passive (w : World) : Prop :=
  forall v, _callback (self w) v = [].

(** ** Predicates of the statements *)

(** [k] is the ceiling of the quotient [a / d], for [d > 0]: the least
    integer with [a <= k * d]. *)
Definition is_ceil (k a d : Z) : Prop :=
  (k - 1) * d < a <= k * d.

(** The timer holds the handle of the only scheduled task. *)
Definition sole_task (w : World) : Prop :=
  exists t, tasks w = [t] /\ _interval (self w) = Some (tid t).

(** A running timer has fires left and exactly its own task scheduled; a
    timer that is not running has nothing scheduled. *)
Definition tidy (w : World) : Prop :=
  match _state (self w) with
  | PLAY => gt0 (_maxCount (self w)) = true /\ sole_task w
  | STOP | PAUSE => tasks w = []
  end.

(** The external calls a client may make are restricted by [P]; the
    scheduler may fire any scheduled task at any time. *)
Definition event_ok (P : Call -> Prop) (e : Event) : Prop :=
  match e with
  | Do c => P c
  | Advance _ | Fire _ => True
  end.

(** The states a timer made by [new Timer(d, cb)] at clock [t0] can be in. *)
Inductive reachable (P : Call -> Prop) (d : Z) (cb : View -> list Call)
          (t0 : Z) : World -> Prop :=
| reach_new : reachable P d cb t0 (new d cb t0)
| reach_step (w w' : World) (e : Event) :
    reachable P d cb t0 w -> event_ok P e -> step e w = Some w' ->
    reachable P d cb t0 w'.

(** No restriction on the calls. *)
Definition any_call : Call -> Prop := fun _ => True.

(** [start] is never given a negative count. *)
Definition count_nonneg (c : Call) : Prop :=
  match c with
  | CStart (Some m) => lt0 m = false
  | _ => True
  end.

(** [start] is never given a negative count nor a fraction. *)
Definition count_ok (c : Call) : Prop :=
  match c with
  | CStart (Some m) => lt0 m = false /\ integral m
  | _ => True
  end.

(** A running timer holds a handle. *)
Definition handle_ok (w : World) : Prop :=
  _state (self w) = PLAY -> _interval (self w) <> None.

(** The handle is null exactly as long as the scheduler has given out no
    handle: [setTimeout] and [setInterval] have not been called yet. *)
Definition handle_inv (w : World) : Prop :=
  match _interval (self w) with
  | None => next_id w = 1%nat /\ tasks w = []
  | Some _ => (1 < next_id w)%nat
  end.

(** [k] decrements. *)
Definition decr_n (k : nat) (m : Num) : Num :=
  match m with
  | Fin z => Fin (z - Z.of_nat k)
  | Rat q => Nat.iter k decr (Rat q)
  | other => other
  end.

(** The counts seen by [k] successive invocations of a passive callback,
    the first of which sees [c + 1]. *)
Definition counts_from (c : Z) (k : nat) : list Z :=
  map (fun i => c + Z.of_nat i) (seq 1 k).

(** A callback that calls [play()] when it sees the count [1]. *)
Definition plays_once : View -> list Call :=
  fun v => if v_count v =? 1 then [CPlay] else [].

(** Every scheduled task is the one the timer holds the handle of. *)
Definition owned (w : World) : Prop :=
  forall t, In t (tasks w) -> _interval (self w) = Some (tid t).

(** What the callback sees when a task of [w] fires: the handler has
    recorded the time of the firing and incremented the count. *)
Definition seen (w : World) : View :=
  view (with_self (set_count (_count (self w) + 1))
                  (with_self (set_lastTime (getCurrentTime w)) w)).

(** A callback that stops the timer at its second invocation. *)
Definition stops_at_2 : View -> list Call :=
  fun v => if v_count v =? 2 then [CStop] else [].

(** A callback that pauses the timer at its second invocation. *)
Definition pauses_at_2 : View -> list Call :=
  fun v => if v_count v =? 2 then [CPause] else [].

(** A callback that sets the delay, as in the first example of the README. *)
Definition sets_delay (d : Z) : View -> list Call :=
  fun _ => [CSetDelay d].

(** The number of firings in a sequence of events. *)
Definition fired (es : list Event) : nat :=
  length (filter (fun e => match e with Fire _ => true | _ => false end) es).

(** The wait of every scheduled task fits the current delay: an interval
    runs at the delay, a timeout waits between [1] ms and the delay, or
    [0] ms when the delay is not positive. *)
Definition sched_ok (w : World) : Prop :=
  forall t, In t (tasks w) ->
    match kind t with
    | Interval => ms t = _delay (self w)
    | Timeout =>
        if 0 <? _delay (self w) then 1 <= ms t <= _delay (self w)
        else ms t = 0
    end.

(** A stopped timer has its counters at rest. *)
Definition at_rest (w : World) : Prop :=
  _state (self w) = STOP ->
  _count (self w) = 0 /\ _pausedTime (self w) = 0 /\
  _lastTime (self w) = _currentTime (self w).

(** * Arithmetic of the ceiling *)

Section Ceiling.

Lemma Math_ceil_div_Z (a d : Z) :
  0 < d -> Math_ceil_div a d = - ((- a) / d).
Proof.
  intros Hd. destruct d as [|p|p]; try lia.
  unfold Math_ceil_div, Qceiling, Qfloor, Qdiv, Qinv, Qmult, Qopp, inject_Z.
  cbn [Qnum Qden].
  rewrite Z.mul_1_r, Pos.mul_1_l. reflexivity.
Qed.

Lemma Math_ceil_div_is_ceil (a d : Z) :
  0 < d -> is_ceil (Math_ceil_div a d) a d.
Proof.
  intros Hd. rewrite Math_ceil_div_Z by assumption. unfold is_ceil.
  pose proof (Z.div_mod (- a) d ltac:(lia)) as E.
  pose proof (Z.mod_pos_bound (- a) d Hd) as B.
  nia.
Qed.

Lemma is_ceil_unique (k k' a d : Z) :
  0 < d -> is_ceil k a d -> is_ceil k' a d -> k = k'.
Proof. unfold is_ceil. intros Hd H H'. nia. Qed.

End Ceiling.

(** * What each method does to each field *)

Arguments clear : simpl never.
Arguments stop : simpl never.
Arguments pause : simpl never.
Arguments play : simpl never.
Arguments getCurrentTime : simpl never.
Arguments getElapsedTime : simpl never.
Arguments getRemainingTime : simpl never.

(** Field lemmas are proved on a world given field by field. *)
Ltac fields :=
  match goal with
  | w : World |- _ =>
      destruct w as [[? ? ? ? ? ? ? [?|] ?] ? ? ? ?]; reflexivity
  end.

Lemma filter_twice {A : Type} (f : A -> bool) (l : list A) :
  filter f (filter f l) = filter f l.
Proof.
  induction l as [|a l IH]; cbn; [reflexivity|].
  destruct (f a) eqn:E; cbn; rewrite ?E, IH; reflexivity.
Qed.

Section Fields.

Variable w : World.

Lemma clear_self h : self (clear h w) = self w.
Proof. destruct h; reflexivity. Qed.

Lemma clear_now h : now (clear h w) = now w.
Proof. destruct h; reflexivity. Qed.

Lemma clear_log h : log (clear h w) = log w.
Proof. destruct h; reflexivity. Qed.

Lemma clear_next_id h : next_id (clear h w) = next_id w.
Proof. destruct h; reflexivity. Qed.

Lemma stop_self :
  self (stop w) =
  mkTimer (_delay (self w)) (_callback (self w)) (_maxCount (self w))
          0 0 (now w) (now w) (_interval (self w)) STOP.
Proof. fields. Qed.

Lemma stop_tasks :
  tasks (stop w) = tasks (clear (_interval (self w)) w).
Proof.
  destruct w as [[? ? ? ? ? ? ? [i|] ?] ? ? ts ?]; [|reflexivity].
  exact (filter_twice _ ts).
Qed.

Lemma stop_now : now (stop w) = now w.
Proof. fields. Qed.

Lemma stop_log : log (stop w) = log w.
Proof. fields. Qed.

Lemma pause_self :
  self (pause w) =
  mkTimer (_delay (self w)) (_callback (self w)) (_maxCount (self w))
          (_count (self w)) (_pausedTime (self w)) (getCurrentTime w)
          (_lastTime (self w)) (_interval (self w)) PAUSE.
Proof. fields. Qed.

Lemma pause_tasks :
  tasks (pause w) = tasks (clear (_interval (self w)) w).
Proof.
  destruct w as [[? ? ? ? ? ? ? [i|] ?] ? ? ts ?]; [|reflexivity].
  exact (filter_twice _ ts).
Qed.

Lemma pause_now : now (pause w) = now w.
Proof. fields. Qed.

Lemma pause_log : log (pause w) = log w.
Proof. fields. Qed.

Lemma pause_next_id : next_id (pause w) = next_id w.
Proof. fields. Qed.

(** Pausing freezes the current time: the elapsed and the remaining time
    read the same before and after. *)
Lemma pause_getElapsedTime : getElapsedTime (pause w) = getElapsedTime w.
Proof.
  unfold getElapsedTime, getCurrentTime at 1, isRunning, getState.
  rewrite pause_self. reflexivity.
Qed.

Lemma pause_getRemainingTime :
  getRemainingTime (pause w) = getRemainingTime w.
Proof.
  unfold getRemainingTime. rewrite pause_getElapsedTime, pause_self.
  reflexivity.
Qed.

Lemma play_self :
  self (play w) =
  if gt0 (_maxCount (self w))
  then mkTimer (_delay (self w)) (_callback (self w)) (_maxCount (self w))
               (_count (self w)) (now w - getCurrentTime w)
               (getCurrentTime w) (_lastTime (self w))
               (Some (next_id w)) PLAY
  else self (stop w).
Proof.
  unfold play. destruct (gt0 (_maxCount (self w))); [|reflexivity].
  unfold schedule, with_self, set_interval, set_pausedTime, set_state.
  cbn. rewrite pause_self, pause_now, pause_next_id. reflexivity.
Qed.

Lemma play_tasks :
  tasks (play w) =
  if gt0 (_maxCount (self w))
  then tasks (clear (_interval (self w)) w)
       ++ [mkTask (next_id w) Timeout (getRemainingTime w)]
  else tasks (clear (_interval (self w)) w).
Proof.
  unfold play. destruct (gt0 (_maxCount (self w))).
  - unfold schedule, with_self. cbn.
    rewrite pause_tasks, pause_next_id, pause_getRemainingTime.
    reflexivity.
  - apply stop_tasks.
Qed.

Lemma play_log : log (play w) = log w.
Proof.
  unfold play. destruct (gt0 (_maxCount (self w))).
  - cbn. apply pause_log.
  - apply stop_log.
Qed.

Lemma play_now : now (play w) = now w.
Proof.
  unfold play. destruct (gt0 (_maxCount (self w))).
  - cbn. apply pause_now.
  - apply stop_now.
Qed.

Lemma stop_next_id : next_id (stop w) = next_id w.
Proof. fields. Qed.

Lemma play_next_id :
  next_id (play w) =
  if gt0 (_maxCount (self w)) then S (next_id w) else next_id w.
Proof.
  unfold play. destruct (gt0 (_maxCount (self w))).
  - unfold schedule, with_self. cbn. rewrite pause_next_id. reflexivity.
  - apply stop_next_id.
Qed.

Lemma stop_eq :
  stop w =
  mkWorld (mkTimer (_delay (self w)) (_callback (self w))
                   (_maxCount (self w)) 0 0 (now w) (now w)
                   (_interval (self w)) STOP)
          (now w) (next_id w) (tasks (clear (_interval (self w)) w))
          (log w).
Proof.
  destruct w as [[? ? ? ? ? ? ? [i|] ?] ? ? ts ?]; [|reflexivity].
  unfold stop, clear. cbn. rewrite filter_twice. reflexivity.
Qed.

End Fields.

(** From here on [stop], [pause] and [play] are used through the lemmas
    above only. *)
Opaque stop pause play.

(** * Worlds without stray tasks *)

Section Tidy.

Lemma tidy_clear (w : World) :
  tidy w -> tasks (clear (_interval (self w)) w) = [].
Proof.
  unfold tidy, sole_task.
  destruct (_state (self w)).
  - intros E. destruct (_interval (self w)); unfold clear; cbn;
      rewrite ?E; reflexivity.
  - intros [_ [t [E Ei]]]. rewrite Ei. unfold clear. cbn. rewrite E. cbn.
    rewrite Nat.eqb_refl. reflexivity.
  - intros E. destruct (_interval (self w)); unfold clear; cbn;
      rewrite ?E; reflexivity.
Qed.

Lemma tidy_new d cb t0 : tidy (new d cb t0).
Proof. reflexivity. Qed.

Lemma tidy_stop (w : World) : tidy w -> tidy (stop w).
Proof.
  intros T. unfold tidy. rewrite stop_self, stop_tasks. cbn.
  apply tidy_clear, T.
Qed.

Lemma tidy_pause (w : World) : tidy w -> tidy (pause w).
Proof.
  intros T. unfold tidy. rewrite pause_self, pause_tasks. cbn.
  apply tidy_clear, T.
Qed.

Lemma tidy_play (w : World) : tidy w -> tidy (play w).
Proof.
  intros T. unfold tidy, sole_task. rewrite play_self, play_tasks.
  destruct (gt0 (_maxCount (self w))) eqn:G.
  - cbn. split; [assumption|].
    rewrite (tidy_clear w T). cbn. eexists. split; reflexivity.
  - rewrite stop_self. cbn. apply tidy_clear, T.
Qed.

Lemma tidy_with_delay (d : Z) (w : World) :
  tidy w -> tidy (with_self (set_delay d) w).
Proof. intros T. exact T. Qed.

Lemma tidy_with_maxCount_stop (m : Num) (w : World) :
  tidy w -> tidy (stop (with_self (set_maxCount m) w)).
Proof.
  intros T. unfold tidy. rewrite stop_self, stop_tasks. cbn.
  rewrite <- (tidy_clear w T).
  destruct (_interval (self w)); reflexivity.
Qed.

Lemma tidy_exec (c : Call) (w : World) : tidy w -> tidy (exec c w).
Proof.
  intros T. destruct c; cbn.
  - apply tidy_play, tidy_with_maxCount_stop, T.
  - apply tidy_stop, T.
  - apply tidy_play, T.
  - apply tidy_pause, T.
  - unfold toggle. destruct (isRunning w);
      [apply tidy_pause | apply tidy_play]; exact T.
  - unfold setDelay. destruct (isRunning _);
      [apply tidy_play|]; apply tidy_with_delay, T.
  - apply tidy_play, tidy_with_maxCount_stop, T.
Qed.

Lemma tidy_advance (dt : Z) (w : World) : tidy w -> tidy (advance dt w).
Proof. intros T. exact T. Qed.

End Tidy.

(** * The callback never changes *)

Section Callback.

Lemma callback_stop w : _callback (self (stop w)) = _callback (self w).
Proof. rewrite stop_self. reflexivity. Qed.

Lemma callback_pause w : _callback (self (pause w)) = _callback (self w).
Proof. rewrite pause_self. reflexivity. Qed.

Lemma callback_play w : _callback (self (play w)) = _callback (self w).
Proof.
  rewrite play_self. destruct (gt0 _); [reflexivity | apply callback_stop].
Qed.

Lemma callback_exec c w : _callback (self (exec c w)) = _callback (self w).
Proof.
  destruct c; cbn.
  - unfold start. rewrite callback_play, callback_stop. reflexivity.
  - apply callback_stop.
  - apply callback_play.
  - apply callback_pause.
  - unfold toggle. destruct (isRunning w);
      [apply callback_pause | apply callback_play].
  - unfold setDelay. destruct (isRunning _); [|reflexivity].
    rewrite callback_play. reflexivity.
  - unfold once, start. rewrite callback_play, callback_stop. reflexivity.
Qed.

Lemma callback_execs cs w :
  _callback (self (fold_left (fun w c => exec c w) cs w))
  = _callback (self w).
Proof.
  revert w. induction cs as [|c cs IH]; intros w; cbn; [reflexivity|].
  rewrite IH. apply callback_exec.
Qed.

Lemma callback_invoke w : _callback (self (invoke w)) = _callback (self w).
Proof. unfold invoke. rewrite callback_execs. reflexivity. Qed.

Lemma callback_tick w : _callback (self (tick w)) = _callback (self w).
Proof. unfold tick. rewrite callback_invoke. reflexivity. Qed.

Lemma callback_on_timeout w :
  _callback (self (on_timeout w)) = _callback (self w).
Proof.
  unfold on_timeout. destruct (isRunning (tick w)).
  - destruct (gt0 _); cbn; rewrite ?callback_stop; cbn; apply callback_tick.
  - apply callback_tick.
Qed.

Lemma callback_on_interval w :
  _callback (self (on_interval w)) = _callback (self w).
Proof.
  unfold on_interval.
  destruct (le0 _); rewrite ?callback_stop; cbn; apply callback_tick.
Qed.

Lemma callback_fire h w w' :
  fire h w = Some w' -> _callback (self w') = _callback (self w).
Proof.
  unfold fire. destruct (find_task h w) as [t|]; [|discriminate].
  destruct (kind t); intros [= <-].
  - rewrite callback_on_timeout. reflexivity.
  - apply callback_on_interval.
Qed.

Lemma callback_step e w w' :
  step e w = Some w' -> _callback (self w') = _callback (self w).
Proof.
  destruct e; cbn.
  - intros [= <-]. reflexivity.
  - apply callback_fire.
  - intros [= <-]. apply callback_exec.
Qed.

Lemma passive_step e w w' : step e w = Some w' -> passive w -> passive w'.
Proof.
  intros Hs P v. rewrite (callback_step _ _ _ Hs). apply P.
Qed.

(** A passive callback is only counted. *)
Lemma invoke_passive w :
  passive w ->
  invoke w = mkWorld (self w) (now w) (next_id w) (tasks w)
                     (log w ++ [getCount w]).
Proof. intros P. unfold invoke. rewrite P. reflexivity. Qed.

End Callback.

(** * One firing of a timer whose callback is passive *)

Section Firing.

Lemma gt0_decr_le0 (m : Num) :
  gt0 m = true -> le0 (decr m) = negb (gt0 (decr m)).
Proof.
  destruct m as [z|q| | |]; cbn; try discriminate; [| |reflexivity].
  - intros _. destruct (Z.leb_spec (z - 1) 0), (Z.ltb_spec 0 (z - 1));
      cbn; try reflexivity; lia.
  - intros _.
    destruct (Z.leb_spec (Qnum (q - 1)) 0), (Z.ltb_spec 0 (Qnum (q - 1)));
      cbn; try reflexivity; lia.
Qed.

Lemma gt0_decr_lt0 (m : Num) :
  integral m -> gt0 m = true -> lt0 (decr m) = false.
Proof.
  destruct m as [z|q| | |]; cbn; try discriminate; try contradiction;
    [|reflexivity].
  intros _ G. apply Z.ltb_lt in G. apply Z.ltb_ge. lia.
Qed.

Lemma integral_decr (m : Num) : integral m -> integral (decr m).
Proof. destruct m; cbn; intros I; exact I. Qed.

Lemma on_timeout_passive d cb m c p ct lt i nw nid ts lg :
  (forall v, cb v = []) ->
  on_timeout (mkWorld (mkTimer d cb m c p ct lt i PLAY) nw nid ts lg) =
  if gt0 (decr m)
  then mkWorld (mkTimer d cb (decr m) (c + 1) p ct (nw - p) (Some nid) PLAY)
               nw (S nid) (ts ++ [mkTask nid Interval d]) (lg ++ [c + 1])
  else stop (mkWorld (mkTimer d cb (decr m) (c + 1) p ct (nw - p) i PLAY)
                     nw nid ts (lg ++ [c + 1])).
Proof.
  intros P. unfold on_timeout, tick, invoke. cbn. rewrite P. cbn.
  destruct (gt0 (decr m)); reflexivity.
Qed.

Lemma on_interval_passive d cb m c p ct lt i nw nid ts lg :
  (forall v, cb v = []) ->
  on_interval (mkWorld (mkTimer d cb m c p ct lt i PLAY) nw nid ts lg) =
  if le0 (decr m)
  then stop (mkWorld (mkTimer d cb (decr m) (c + 1) p ct (nw - p) i PLAY)
                     nw nid ts (lg ++ [c + 1]))
  else mkWorld (mkTimer d cb (decr m) (c + 1) p ct (nw - p) i PLAY)
               nw nid ts (lg ++ [c + 1]).
Proof.
  intros P. unfold on_interval, tick, invoke. cbn. rewrite P. cbn.
  destruct (le0 (decr m)); reflexivity.
Qed.

(** What a firing does when the world is tidy and the callback passive:
    only the timer's own task can fire, the callback sees the count
    incremented, the fire count is decremented, and the timer runs on
    with its own task scheduled, or is stopped with nothing scheduled. *)
Lemma fire_passive (h : nat) (w w' : World) :
  passive w -> tidy w -> fire h w = Some w' ->
  _state (self w) = PLAY /\
  _interval (self w) = Some h /\
  tidy w' /\
  log w' = log w ++ [_count (self w) + 1] /\
  _maxCount (self w') = decr (_maxCount (self w)) /\
  now w' = now w /\
  _delay (self w') = _delay (self w) /\
  _pausedTime (self w') =
    (if gt0 (_maxCount (self w')) then _pausedTime (self w) else 0) /\
  (if gt0 (_maxCount (self w'))
   then _state (self w') = PLAY /\ _count (self w') = _count (self w) + 1
   else _state (self w') = STOP /\ _count (self w') = 0 /\ tasks w' = []).
Proof.
  intros P T F.
  destruct w as [[d cb m c p ct lt i s] nw nid ts lg].
  unfold passive, tidy, sole_task, fire, find_task in *. cbn in *.
  destruct s; try (subst ts; discriminate).
  destruct T as [G [[th k tm] [Et Ei]]]. cbn in Ei. subst ts i.
  cbn in F. destruct (Nat.eqb_spec th h) as [Eh|]; [|discriminate].
  subst h. split; [reflexivity|]. split; [reflexivity|].
  destruct k; injection F as <-.
  - (* the timeout *)
    unfold clear. cbn. rewrite Nat.eqb_refl. cbn.
    rewrite on_timeout_passive by exact P.
    destruct (gt0 (decr m)) eqn:G'.
    + cbn. rewrite G'. repeat split. eexists. split; reflexivity.
    + rewrite stop_eq. unfold clear. cbn. rewrite G'. repeat split.
  - (* the interval *)
    rewrite on_interval_passive by exact P.
    rewrite (gt0_decr_le0 _ G).
    destruct (gt0 (decr m)) eqn:G'; cbn.
    + rewrite G'. repeat split. eexists. split; reflexivity.
    + rewrite stop_eq. unfold clear. cbn. rewrite Nat.eqb_refl. cbn.
      rewrite G'.
      repeat split.
Qed.

(** A running tidy timer always has a task that can fire. *)
Lemma fire_next_enabled (dt : Z) (w : World) :
  tidy w -> _state (self w) = PLAY -> exists w', fire_next dt w = Some w'.
Proof.
  unfold tidy, sole_task, fire_next, fire, find_task.
  intros T St. rewrite St in T. destruct T as [_ [t [Et Ei]]].
  rewrite Ei. cbn. rewrite Et. cbn. rewrite Nat.eqb_refl.
  destruct (kind t); eexists; reflexivity.
Qed.

(** Nothing can fire when nothing is scheduled. *)
Lemma fire_none (h : nat) (w : World) : tasks w = [] -> fire h w = None.
Proof. unfold fire, find_task. intros ->. reflexivity. Qed.

End Firing.

(** * Reachable states *)

Lemma reachable_run P d cb t0 (es : list Event) :
  forall w w',
    reachable P d cb t0 w -> Forall (event_ok P) es -> run es w = Some w' ->
    reachable P d cb t0 w'.
Proof.
  induction es as [|e es IH]; intros w w' R F H; cbn in H.
  - injection H as <-. exact R.
  - inversion F as [|? ? Fe Fes]; subst.
    destruct (step e w) as [w1|] eqn:S1; [|discriminate].
    apply (IH w1 w'); [|assumption|assumption].
    apply (reach_step P d cb t0 w w1 e); assumption.
Qed.

Lemma reachable_callback P d cb t0 w :
  reachable P d cb t0 w -> _callback (self w) = cb.
Proof.
  induction 1 as [|w w' e R IH Ok S1]; [reflexivity|].
  rewrite (callback_step _ _ _ S1). exact IH.
Qed.

(** ** The handle field *)

Section Handle.

Lemma handle_ok_stop w : handle_ok (stop w).
Proof. unfold handle_ok. rewrite stop_self. cbn. discriminate. Qed.

Lemma handle_ok_pause w : handle_ok (pause w).
Proof. unfold handle_ok. rewrite pause_self. cbn. discriminate. Qed.

Lemma handle_ok_play w : handle_ok (play w).
Proof.
  unfold handle_ok. rewrite play_self. destruct (gt0 _).
  - cbn. discriminate.
  - apply handle_ok_stop.
Qed.

Lemma handle_ok_exec c w : handle_ok w -> handle_ok (exec c w).
Proof.
  intros H. destruct c; cbn.
  - apply handle_ok_play.
  - apply handle_ok_stop.
  - apply handle_ok_play.
  - apply handle_ok_pause.
  - unfold toggle. destruct (isRunning w);
      [apply handle_ok_pause | apply handle_ok_play].
  - unfold setDelay. destruct (isRunning _);
      [apply handle_ok_play | exact H].
  - apply handle_ok_play.
Qed.

Lemma handle_ok_execs cs :
  forall w, handle_ok w ->
            handle_ok (fold_left (fun w c => exec c w) cs w).
Proof.
  induction cs as [|c cs IH]; intros w H; cbn; [exact H|].
  apply IH, handle_ok_exec, H.
Qed.

Lemma handle_ok_tick w : handle_ok w -> handle_ok (tick w).
Proof.
  intros H. unfold tick, invoke. apply handle_ok_execs. exact H.
Qed.

Lemma handle_ok_fire h w w' :
  handle_ok w -> fire h w = Some w' -> handle_ok w'.
Proof.
  unfold fire. intros H. destruct (find_task h w) as [t|]; [|discriminate].
  destruct (kind t); intros [= <-].
  - unfold on_timeout.
    assert (H1 : handle_ok (tick (clear (Some h) w)))
      by (apply handle_ok_tick; exact H).
    destruct (isRunning _); [|exact H1].
    destruct (gt0 _) eqn:G.
    + unfold handle_ok. cbn. discriminate.
    + apply handle_ok_stop.
  - unfold on_interval.
    assert (H1 : handle_ok (tick w)) by (apply handle_ok_tick; exact H).
    destruct (le0 _); [apply handle_ok_stop | exact H1].
Qed.

Lemma handle_ok_reachable P d cb t0 w :
  reachable P d cb t0 w -> handle_ok w.
Proof.
  induction 1 as [|w w' e R IH Ok S1].
  - unfold handle_ok. cbn. discriminate.
  - destruct e; cbn in S1.
    + injection S1 as <-. exact IH.
    + apply (handle_ok_fire h w w' IH S1).
    + injection S1 as <-. apply handle_ok_exec, IH.
Qed.

Lemma find_task_clear h w : find_task h (clear (Some h) w) = None.
Proof.
  unfold find_task, clear. cbn.
  induction (tasks w) as [|t l IH]; cbn; [reflexivity|].
  destruct (Nat.eqb (tid t) h) eqn:E; cbn; [exact IH|].
  rewrite E. exact IH.
Qed.

End Handle.

(** ** Invariants of a timer whose callback is passive *)

Lemma decr_n_0 m : decr_n 0 m = m.
Proof. destruct m; cbn; try reflexivity. f_equal. lia. Qed.

Lemma decr_n_S k m : decr_n (S k) m = decr_n k (decr m).
Proof.
  destruct m as [z|q| | |]; cbn [decr_n decr]; try reflexivity.
  - f_equal. lia.
  - apply Nat.iter_succ_r.
Qed.

Lemma gt0_decr m : gt0 (decr m) = true -> gt0 m = true.
Proof.
  destruct m as [z|q| | |]; cbn; try (intros; assumption).
  - intros G. apply Z.ltb_lt in G. apply Z.ltb_lt. lia.
  - intros G. apply Z.ltb_lt in G. apply Z.ltb_lt. lia.
Qed.

Lemma gt0_decr_n k m : gt0 (decr_n k m) = true -> gt0 m = true.
Proof.
  destruct m as [z|q| | |]; cbn [decr_n]; try (intros; assumption).
  - cbn. intros G. apply Z.ltb_lt in G. apply Z.ltb_lt. lia.
  - induction k as [|k IH]; cbn [Nat.iter]; [intros G; exact G|].
    intros G. apply IH, gt0_decr, G.
Qed.

Lemma le0_not_gt0 m : le0 m = true -> gt0 m = false.
Proof.
  destruct m as [z|q| | |]; cbn; try discriminate; try reflexivity.
  - intros L. apply Z.leb_le in L. apply Z.ltb_ge. lia.
  - intros L. apply Z.leb_le in L. apply Z.ltb_ge. lia.
Qed.

Lemma counts_from_S c k :
  counts_from c (S k) = (c + 1) :: counts_from (c + 1) k.
Proof.
  unfold counts_from. cbn [seq map]. f_equal.
  rewrite <- seq_shift, map_map. apply map_ext. intros i. lia.
Qed.

Lemma counts_from_length c k : length (counts_from c k) = k.
Proof. unfold counts_from. rewrite length_map, length_seq. reflexivity. Qed.

Lemma tidy_reachable P d cb t0 w :
  (forall v, cb v = []) -> reachable P d cb t0 w -> tidy w.
Proof.
  intros Q. induction 1 as [|w w' e R IH Ok S1]; [apply tidy_new|].
  destruct e; cbn in S1.
  - injection S1 as <-. apply tidy_advance, IH.
  - assert (Pw : passive w).
    { intros v. rewrite (reachable_callback _ _ _ _ _ R). apply Q. }
    apply (fire_passive h w w' Pw IH S1).
  - injection S1 as <-. apply tidy_exec, IH.
Qed.

Lemma passive_reachable P d cb t0 w :
  (forall v, cb v = []) -> reachable P d cb t0 w -> passive w.
Proof.
  intros Q R v. rewrite (reachable_callback _ _ _ _ _ R). apply Q.
Qed.

Lemma maxCount_exec c w :
  _maxCount (self (exec c w)) =
  match c with
  | CStart None => PInf
  | CStart (Some m) => m
  | COnce => Fin 1
  | _ => _maxCount (self w)
  end.
Proof.
  assert (Hs : forall u, _maxCount (self (stop u)) = _maxCount (self u))
    by (intros u; rewrite stop_self; reflexivity).
  assert (Hp : forall u, _maxCount (self (play u)) = _maxCount (self u)).
  { intros u. rewrite play_self. destruct (gt0 _); [reflexivity|apply Hs]. }
  destruct c as [[m|]| | | | | |]; cbn.
  - unfold start. rewrite Hp, Hs. reflexivity.
  - unfold start. rewrite Hp, Hs. reflexivity.
  - apply Hs.
  - apply Hp.
  - rewrite pause_self. reflexivity.
  - unfold toggle. destruct (isRunning w); [|apply Hp].
    rewrite pause_self. reflexivity.
  - unfold setDelay. destruct (isRunning _); [|reflexivity].
    rewrite Hp. reflexivity.
  - unfold once, start. rewrite Hp, Hs. reflexivity.
Qed.

Lemma nonneg_reachable d cb t0 w :
  (forall v, cb v = []) -> reachable count_ok d cb t0 w ->
  lt0 (_maxCount (self w)) = false /\ integral (_maxCount (self w)).
Proof.
  intros Q. induction 1 as [|w w' e R IH Ok S1];
    [split; [reflexivity|exact I]|].
  destruct IH as [IH II]. destruct e; cbn in S1.
  - injection S1 as <-. split; assumption.
  - pose proof (passive_reachable _ _ _ _ _ Q R) as Pw.
    pose proof (tidy_reachable _ _ _ _ _ Q R) as Tw.
    destruct (fire_passive h w w' Pw Tw S1) as (St & _ & _ & _ & Em & _).
    rewrite Em. unfold tidy in Tw. rewrite St in Tw.
    split; [apply gt0_decr_lt0; [exact II|apply Tw]|].
    apply integral_decr, II.
  - injection S1 as <-. rewrite maxCount_exec.
    destruct c as [[m|]| | | | | |]; cbn in Ok;
      try (split; [exact IH|exact II]);
      try (split; [reflexivity|exact I]).
    exact Ok.
Qed.

(** [fires] along a list of delays that is split in two. *)
Lemma fires_app dts1 :
  forall dts2 w,
    fires (dts1 ++ dts2) w =
    match fires dts1 w with
    | Some w' => fires dts2 w'
    | None => None
    end.
Proof.
  induction dts1 as [|dt dts1 IH]; intros dts2 w; cbn; [reflexivity|].
  destruct (fire_next dt w); [apply IH | reflexivity].
Qed.

(** As long as fires are left, a passive timer keeps firing. *)
Lemma fires_running dts :
  forall w,
    passive w -> tidy w -> _state (self w) = PLAY ->
    gt0 (decr_n (length dts) (_maxCount (self w))) = true ->
    exists w',
      fires dts w = Some w' /\ passive w' /\ tidy w' /\
      _state (self w') = PLAY /\
      _maxCount (self w') = decr_n (length dts) (_maxCount (self w)) /\
      _count (self w') = _count (self w) + Z.of_nat (length dts) /\
      _delay (self w') = _delay (self w) /\
      log w' = log w ++ counts_from (_count (self w)) (length dts).
Proof.
  induction dts as [|dt dts IH]; intros w P T St G.
  - exists w. cbn [fires length]. rewrite decr_n_0.
    repeat split; try assumption; try reflexivity.
    + cbn. lia.
    + unfold counts_from. cbn. rewrite app_nil_r. reflexivity.
  - cbn [length] in *. rewrite decr_n_S in G.
    destruct (fire_next_enabled dt w T St) as [w1 F1].
    cbn [fires]. rewrite F1.
    assert (F1' := F1). unfold fire_next in F1'.
    destruct (_interval (self w)) as [h|] eqn:Ei; [|discriminate].
    destruct (fire_passive h (advance dt w) w1 P T F1')
      as (_ & _ & T1 & L1 & M1 & _ & D1 & _ & Run).
    cbn in L1, M1, Run, D1.
    pose proof (gt0_decr_n _ _ G) as G1. rewrite <- M1 in G1.
    rewrite G1 in Run. destruct Run as [St1 C1].
    assert (P1 : passive w1).
    { intros v. rewrite (callback_fire _ _ _ F1'). apply P. }
    rewrite <- M1 in G.
    destruct (IH w1 P1 T1 St1 G)
      as (w' & F & P' & T' & St' & M' & C' & D' & L').
    exists w'. repeat split; try assumption.
    + rewrite M', M1, decr_n_S. reflexivity.
    + rewrite C', C1. lia.
    + rewrite D', D1. reflexivity.
    + rewrite L', L1, C1, counts_from_S, <- app_assoc. reflexivity.
Qed.

(** The last of the remaining fires stops the timer. *)
Lemma fires_exhaust dts :
  dts <> [] ->
  forall w,
    passive w -> tidy w -> _state (self w) = PLAY ->
    _maxCount (self w) = Fin (Z.of_nat (length dts)) ->
    exists w',
      fires dts w = Some w' /\
      _state (self w') = STOP /\ tasks w' = [] /\
      _count (self w') = 0 /\ _maxCount (self w') = Fin 0 /\
      log w' = log w ++ counts_from (_count (self w)) (length dts).
Proof.
  induction dts as [|dt dts IH]; [intros N; contradiction|].
  intros _ w P T St M.
  destruct (fire_next_enabled dt w T St) as [w1 F1].
  cbn [fires]. rewrite F1.
  assert (F1' := F1). unfold fire_next in F1'.
  destruct (_interval (self w)) as [h|] eqn:Ei; [|discriminate].
  destruct (fire_passive h (advance dt w) w1 P T F1')
    as (_ & _ & T1 & L1 & M1 & _ & _ & _ & Run).
  cbn in L1, M1, Run. rewrite M in M1. cbn [decr] in M1.
  destruct dts as [|dt' dts'].
  - rewrite M1 in Run. cbn in Run. destruct Run as (St1 & C1 & E1).
    exists w1. cbn [fires length].
    repeat split; try assumption.
  - assert (G1 : gt0 (_maxCount (self w1)) = true).
    { rewrite M1. cbn [gt0 length]. apply Z.ltb_lt. lia. }
    rewrite G1 in Run. destruct Run as [St1 C1].
    assert (P1 : passive w1).
    { intros v. rewrite (callback_fire _ _ _ F1'). apply P. }
    destruct (IH ltac:(discriminate) w1 P1 T1 St1)
      as (w' & F & St' & E' & C' & M' & L').
    { rewrite M1. f_equal. cbn [length]. lia. }
    exists w'. repeat split; try assumption.
    rewrite L', L1, C1, (counts_from_S _ (length (dt' :: dts'))).
    rewrite <- app_assoc. reflexivity.
Qed.

(** What [start] leaves behind. *)
Lemma start_state (n : option Num) (w : World) :
  tidy w ->
  let m := match n with None => PInf | Some m => m end in
  let w1 := start n w in
  tidy w1 /\ _maxCount (self w1) = m /\ _count (self w1) = 0 /\
  _pausedTime (self w1) = 0 /\ log w1 = log w /\
  _state (self w1) = (if gt0 m then PLAY else STOP).
Proof.
  intros T m w1. subst w1. split.
  - change (tidy (exec (CStart n) w)). apply tidy_exec, T.
  - split.
    { change (_maxCount (self (exec (CStart n) w)) = m).
      rewrite maxCount_exec. destruct n; reflexivity. }
    unfold start. rewrite play_self, play_log, stop_log, !stop_self. cbn.
    fold m. unfold getCurrentTime, isRunning, getState.
    rewrite stop_self, stop_now. cbn.
    destruct (gt0 m); cbn; repeat split; try reflexivity; lia.
Qed.

(** ** The methods with the two clock reads apart *)

Lemma World_eta (u : World) :
  u = mkWorld (self u) (now u) (next_id u) (tasks u) (log u).
Proof. destruct u. reflexivity. Qed.

Lemma tasks_clear h (w : World) :
  tasks (clear h w) =
  match h with
  | None => tasks w
  | Some i => filter (fun t => negb (Nat.eqb (tid t) i)) (tasks w)
  end.
Proof. destruct h; reflexivity. Qed.

Lemma set_now_same (w : World) : set_now (now w) w = w.
Proof. destruct w. reflexivity. Qed.


Lemma self_advance (dt : Z) (w : World) : self (advance dt w) = self w.
Proof. reflexivity. Qed.

Lemma play_at_self (t2 : Z) (w : World) :
  self (play_at t2 w) =
  if gt0 (_maxCount (self w))
  then mkTimer (_delay (self w)) (_callback (self w)) (_maxCount (self w))
               (_count (self w)) (t2 - getCurrentTime w)
               (getCurrentTime w) (_lastTime (self w))
               (Some (next_id w)) PLAY
  else self (stop w).
Proof.
  unfold play_at. destruct (gt0 (_maxCount (self w))); [|reflexivity].
  unfold schedule, set_now, with_self, set_interval, set_pausedTime,
    set_state.
  cbn. rewrite pause_self, pause_next_id. reflexivity.
Qed.

Lemma play_at_tasks (t2 : Z) (w : World) :
  tasks (play_at t2 w) = tasks (play w).
Proof.
  rewrite play_tasks. unfold play_at.
  destruct (gt0 (_maxCount (self w))).
  - unfold schedule, set_now, with_self. cbn.
    rewrite pause_tasks, pause_next_id, pause_getRemainingTime.
    reflexivity.
  - apply stop_tasks.
Qed.

Lemma play_at_now (t2 : Z) (w : World) :
  now (play_at t2 w) = if gt0 (_maxCount (self w)) then t2 else now w.
Proof.
  unfold play_at. destruct (gt0 (_maxCount (self w))); [reflexivity|].
  apply stop_now.
Qed.

Lemma play_at_next_id (t2 : Z) (w : World) :
  next_id (play_at t2 w) = next_id (play w).
Proof.
  rewrite play_next_id. unfold play_at.
  destruct (gt0 (_maxCount (self w))).
  - unfold schedule, set_now, with_self. cbn. rewrite pause_next_id.
    reflexivity.
  - apply stop_next_id.
Qed.

Lemma play_at_log (t2 : Z) (w : World) : log (play_at t2 w) = log w.
Proof.
  unfold play_at. destruct (gt0 (_maxCount (self w))).
  - unfold schedule, set_now, with_self. cbn. apply pause_log.
  - apply stop_log.
Qed.

(** With the two reads equal the methods are those of the event loop. *)
Lemma play_at_same (w : World) : play_at (now w) w = play w.
Proof.
  etransitivity; [apply World_eta|].
  symmetry. etransitivity; [apply World_eta|]. symmetry.
  rewrite play_at_self, play_at_now, play_at_next_id, play_at_tasks,
    play_at_log, play_self, play_now, play_log.
  destruct (gt0 (_maxCount (self w))); reflexivity.
Qed.

Lemma start_at_same (n : option Num) (w : World) :
  start_at (now w) n w = start n w.
Proof.
  unfold start_at, start.
  set (u := stop _).
  assert (E : now w = now u) by (unfold u; rewrite stop_now; reflexivity).
  rewrite E, set_now_same. apply play_at_same.
Qed.

Lemma setDelay_at_same (d : Z) (w : World) :
  setDelay_at (now w) d w = setDelay d w.
Proof.
  unfold setDelay_at, setDelay. destruct (isRunning _); [|reflexivity].
  apply (play_at_same (with_self (set_delay d) w)).
Qed.

Lemma play_at_getCurrentTime (t2 : Z) (w : World) :
  gt0 (_maxCount (self w)) = true ->
  getCurrentTime (play_at t2 w) = getCurrentTime w.
Proof.
  intros G. unfold getCurrentTime at 1, isRunning, getState.
  rewrite play_at_self, play_at_now, G. cbn. lia.
Qed.

Lemma play_at_getElapsedTime (t2 : Z) (w : World) :
  gt0 (_maxCount (self w)) = true ->
  getElapsedTime (play_at t2 w) = getElapsedTime w.
Proof.
  intros G. unfold getElapsedTime. rewrite (play_at_getCurrentTime t2 w G).
  rewrite play_at_self, G. reflexivity.
Qed.

Lemma play_at_pausedTime (t2 : Z) (w : World) :
  _pausedTime (self (play_at t2 w)) =
  if gt0 (_maxCount (self w))
  then match _state (self w) with
       | PLAY => _pausedTime (self w) + (t2 - now w)
       | STOP | PAUSE => t2 - _currentTime (self w)
       end
  else 0.
Proof.
  rewrite play_at_self. destruct (gt0 _).
  - cbn. unfold getCurrentTime, isRunning, getState.
    destruct (_state (self w)); cbn; lia.
  - rewrite stop_self. reflexivity.
Qed.




(** ** When the handle is null *)

Lemma tasks_clear_some (i : nat) (w : World) :
  tasks (clear (Some i) w)
  = filter (fun t => negb (Nat.eqb (tid t) i)) (tasks w).
Proof. reflexivity. Qed.

Lemma handle_inv_stop (w : World) : handle_inv w -> handle_inv (stop w).
Proof.
  unfold handle_inv. rewrite stop_self, stop_next_id, stop_tasks. cbn.
  destruct (_interval (self w)); [intros H; exact H|].
  intros [N T]. split; [exact N|exact T].
Qed.

Lemma handle_inv_pause (w : World) : handle_inv w -> handle_inv (pause w).
Proof.
  unfold handle_inv. rewrite pause_self, pause_next_id, pause_tasks. cbn.
  destruct (_interval (self w)); [intros H; exact H|].
  intros [N T]. split; [exact N|exact T].
Qed.

Lemma handle_inv_pos (w : World) : handle_inv w -> (1 <= next_id w)%nat.
Proof.
  unfold handle_inv. destruct (_interval (self w)); [lia|].
  intros [-> _]. lia.
Qed.

Lemma handle_inv_play (w : World) : handle_inv w -> handle_inv (play w).
Proof.
  intros H. pose proof (handle_inv_pos w H) as N.
  unfold handle_inv. rewrite play_self, play_next_id, play_tasks.
  destruct (gt0 (_maxCount (self w))); [cbn; lia|].
  rewrite <- stop_next_id, <- stop_tasks. apply (handle_inv_stop w H).
Qed.

Lemma handle_inv_exec (c : Call) (w : World) :
  handle_inv w -> handle_inv (exec c w).
Proof.
  intros H. destruct c; cbn.
  - unfold start. apply handle_inv_play, handle_inv_stop. exact H.
  - apply handle_inv_stop, H.
  - apply handle_inv_play, H.
  - apply handle_inv_pause, H.
  - unfold toggle. destruct (isRunning w);
      [apply handle_inv_pause|apply handle_inv_play]; exact H.
  - unfold setDelay. destruct (isRunning _);
      [apply handle_inv_play|]; exact H.
  - unfold once, start. apply handle_inv_play, handle_inv_stop. exact H.
Qed.

Lemma handle_inv_execs (cs : list Call) :
  forall w, handle_inv w ->
            handle_inv (fold_left (fun w c => exec c w) cs w).
Proof.
  induction cs as [|c cs IH]; intros w H; cbn; [exact H|].
  apply IH, handle_inv_exec, H.
Qed.

Lemma handle_inv_tick (w : World) : handle_inv w -> handle_inv (tick w).
Proof.
  intros H. unfold tick, invoke. apply handle_inv_execs. exact H.
Qed.

Lemma handle_inv_fire (h : nat) (w w' : World) :
  handle_inv w -> fire h w = Some w' -> handle_inv w'.
Proof.
  unfold fire. intros H. destruct (find_task h w) as [t|]; [|discriminate].
  destruct (kind t); intros [= <-].
  - assert (H0 : handle_inv (clear (Some h) w)).
    { unfold handle_inv in *.
      change (self (clear (Some h) w)) with (self w).
      change (next_id (clear (Some h) w)) with (next_id w).
      rewrite tasks_clear_some.
      destruct (_interval (self w)); [exact H|].
      destruct H as [N T]. rewrite T. split; [exact N|reflexivity]. }
    pose proof (handle_inv_tick _ H0) as H1.
    unfold on_timeout. set (y := tick (clear (Some h) w)) in *. clearbody y.
    destruct (isRunning y); [|exact H1].
    destruct (gt0 _).
    + pose proof (handle_inv_pos y H1). unfold handle_inv. cbn. lia.
    + apply handle_inv_stop. exact H1.
  - pose proof (handle_inv_tick _ H) as H1.
    unfold on_interval. set (y := tick w) in *. clearbody y.
    destruct (le0 _); [apply handle_inv_stop|]; exact H1.
Qed.

Lemma handle_inv_reachable P d cb t0 w :
  reachable P d cb t0 w -> handle_inv w.
Proof.
  induction 1 as [|w w' e R IH Ok S1].
  - split; reflexivity.
  - destruct e; cbn in S1.
    + injection S1 as <-. exact IH.
    + apply (handle_inv_fire h w w' IH S1).
    + injection S1 as <-. apply handle_inv_exec, IH.
Qed.

(** Once set, the handle is never null again. *)
Lemma handle_kept_exec (c : Call) (w : World) :
  _interval (self w) <> None -> _interval (self (exec c w)) <> None.
Proof.
  assert (Hs : forall u, _interval (self (stop u)) = _interval (self u))
    by (intros u; rewrite stop_self; reflexivity).
  assert (Hq : forall u, _interval (self (pause u)) = _interval (self u))
    by (intros u; rewrite pause_self; reflexivity).
  assert (Hp : forall u, _interval (self u) <> None ->
                         _interval (self (play u)) <> None).
  { intros u N. rewrite play_self.
    destruct (gt0 _); [discriminate|rewrite Hs; exact N]. }
  intros N. destruct c; cbn.
  - unfold start. apply Hp. rewrite Hs. exact N.
  - rewrite Hs. exact N.
  - apply Hp, N.
  - rewrite Hq. exact N.
  - unfold toggle. destruct (isRunning w); [rewrite Hq; exact N|apply Hp, N].
  - unfold setDelay. destruct (isRunning _); [apply Hp|]; exact N.
  - unfold once, start. apply Hp. rewrite Hs. exact N.
Qed.

Lemma handle_kept_execs (cs : list Call) :
  forall w, _interval (self w) <> None ->
            _interval (self (fold_left (fun w c => exec c w) cs w)) <> None.
Proof.
  induction cs as [|c cs IH]; intros w N; cbn; [exact N|].
  apply IH, handle_kept_exec, N.
Qed.

Lemma handle_kept_step (e : Event) (w w' : World) :
  step e w = Some w' ->
  _interval (self w) <> None -> _interval (self w') <> None.
Proof.
  intros S1 N. destruct e; cbn in S1.
  - injection S1 as <-. exact N.
  - unfold fire in S1. destruct (find_task h w) as [t|]; [|discriminate].
    destruct (kind t); injection S1 as <-.
    + assert (N1 : _interval (self (tick (clear (Some h) w))) <> None)
        by (unfold tick, invoke; apply handle_kept_execs; exact N).
      unfold on_timeout. set (y := tick (clear (Some h) w)) in *.
      clearbody y. destruct (isRunning y); [|exact N1].
      destruct (gt0 _); [cbn; discriminate|].
      rewrite stop_self. exact N1.
    + assert (N1 : _interval (self (tick w)) <> None)
        by (unfold tick, invoke; apply handle_kept_execs; exact N).
      unfold on_interval. set (y := tick w) in *. clearbody y.
      destruct (le0 _); [rewrite stop_self|]; exact N1.
  - injection S1 as <-. apply handle_kept_exec, N.
Qed.

(** * The claims *)

(** ** Remaining time *)

(** C5: [getRemainingTime()] is [ceil((e + 1) / delay) * delay - e] when the
    delay is positive, where [e = getElapsedTime() = getCurrentTime() -
    _lastTime] and the ceiling is the least integer not below the quotient,
    and it is [0] when the delay is zero or negative. *)
Theorem getRemainingTime_formula (w : World) :
  getElapsedTime w = getCurrentTime w - _lastTime (self w) /\
  getRemainingTime w =
    (if 0 <? getDelay w
     then Math_ceil_div (getElapsedTime w + 1) (getDelay w) * getDelay w
          - getElapsedTime w
     else 0) /\
  (if 0 <? getDelay w
   then exists k, is_ceil k (getElapsedTime w + 1) (getDelay w) /\
                  (forall k', is_ceil k' (getElapsedTime w + 1) (getDelay w)
                              -> k' = k) /\
                  getRemainingTime w = k * getDelay w - getElapsedTime w
   else getRemainingTime w = 0).
Proof.
  split; [reflexivity|]. split; [reflexivity|].
  unfold getRemainingTime, getDelay.
  destruct (Z.ltb_spec 0 (_delay (self w))) as [Hd|Hd]; [|reflexivity].
  pose proof (Math_ceil_div_is_ceil (getElapsedTime w + 1) _ Hd) as C.
  exists (Math_ceil_div (getElapsedTime w + 1) (_delay (self w))).
  split; [exact C|]. split; [|reflexivity].
  intros k' C'. apply (is_ceil_unique k' _ _ _ Hd C' C).
Qed.

(** C10: with a positive delay and a non-negative elapsed time,
    [getRemainingTime()] lies in [1 .. delay]; when the elapsed time is an
    exact multiple of the delay it is the full delay; and it is the delay
    [play()] gives to [setTimeout]. *)
Theorem getRemainingTime_bounds (w : World) :
  0 < getDelay w -> 0 <= getElapsedTime w ->
  1 <= getRemainingTime w <= getDelay w /\
  (getElapsedTime w mod getDelay w = 0 -> getRemainingTime w = getDelay w) /\
  (gt0 (_maxCount (self w)) = true ->
   exists t, In t (tasks (play w)) /\
             _interval (self (play w)) = Some (tid t) /\
             kind t = Timeout /\ ms t = getRemainingTime w).
Proof.
  intros Hd He.
  unfold getRemainingTime, getDelay in *.
  destruct (Z.ltb_spec 0 (_delay (self w))) as [_|]; [|lia].
  pose proof (Math_ceil_div_is_ceil (getElapsedTime w + 1) _ Hd) as C.
  unfold is_ceil in C.
  set (k := Math_ceil_div (getElapsedTime w + 1) (_delay (self w))) in *.
  set (e := getElapsedTime w) in *. set (d := _delay (self w)) in *.
  split; [lia|]. split.
  - intros Hm.
    apply Z.mod_divide in Hm; [|lia]. destruct Hm as [q Hq].
    assert (k = q + 1) by nia. subst k. nia.
  - intros G. rewrite play_self, play_tasks, G.
    eexists. split; [apply in_or_app; right; left; reflexivity|].
    cbn. repeat split.
    unfold getRemainingTime. fold e. fold d.
    destruct (Z.ltb_spec 0 d); [reflexivity|lia].
Qed.

Lemma getRemainingTime_bounds_witness :
  let w := advance 2000 (start None (new 1000 quiet 0)) in
  (0 < getDelay w /\ 0 <= getElapsedTime w /\
   getElapsedTime w mod getDelay w = 0 /\
   gt0 (_maxCount (self w)) = true) /\
  getRemainingTime w = 1000.
Proof.
  intros w.
  assert (Hd : 0 < getDelay w) by (vm_compute; reflexivity).
  assert (He : 0 <= getElapsedTime w) by (vm_compute; discriminate).
  assert (Hm : getElapsedTime w mod getDelay w = 0)
    by (vm_compute; reflexivity).
  split; [repeat split; assumption|].
  destruct (getRemainingTime_bounds w Hd He) as (_ & Full & _).
  rewrite (Full Hm). vm_compute. reflexivity.
Defined.

(** ** Count exhaustion *)

(** C1, as amended: for a timer whose callback does not call back into
    the timer and every integer [n > 0], after [start(n)] the timer's own
    task is the only one scheduled and stays so while fewer than [n]
    firings have happened; the [k]-th firing's callback sees
    [getCount() = k]; the [n]-th firing leaves the timer stopped with
    nothing scheduled, so that nothing fires any more, and, [stop()]
    having run, with [getCount() = 0]. *)
Theorem start_fires_n_times (d t0 : Z) (cb : View -> list Call)
        (w : World) (n : Z) (dts : list Z) :
  (forall v, cb v = []) -> reachable any_call d cb t0 w ->
  0 < n -> Z.of_nat (length dts) = n ->
  let w0 := start (Some (Fin n)) w in
  (forall k, (k < length dts)%nat ->
     exists wk, fires (firstn k dts) w0 = Some wk /\
                _state (self wk) = PLAY /\ sole_task wk /\
                getCount wk = Z.of_nat k /\
                log wk = log w ++ counts_from 0 k) /\
  (exists w', fires dts w0 = Some w' /\
              _state (self w') = STOP /\ tasks w' = [] /\
              (forall h, fire h w' = None) /\
              log w' = log w ++ counts_from 0 (length dts) /\
              getCount w' = 0).
Proof.
  intros Q R Hn Hl w0.
  pose proof (tidy_reachable _ _ _ _ _ Q R) as T.
  pose proof (passive_reachable _ _ _ _ _ Q R) as P.
  destruct (start_state (Some (Fin n)) w T) as (T0 & M0 & C0 & _ & L0 & S0).
  fold w0 in T0, M0, C0, L0, S0. cbn [gt0] in S0.
  assert (G : (0 <? n) = true) by (apply Z.ltb_lt; exact Hn).
  rewrite G in S0.
  assert (P0 : passive w0).
  { intros v. unfold w0.
    change (start (Some (Fin n)) w) with (exec (CStart (Some (Fin n))) w).
    rewrite callback_exec. apply P. }
  split.
  - intros k Hk.
    assert (Lk : length (firstn k dts) = k) by (apply firstn_length_le; lia).
    destruct (fires_running (firstn k dts) w0 P0 T0 S0)
      as (wk & F & _ & Tk & Sk & _ & Ck & _ & Lgk).
    { rewrite Lk, M0. cbn. apply Z.ltb_lt. lia. }
    exists wk. rewrite Lk in *. repeat split; try assumption.
    + unfold tidy in Tk. rewrite Sk in Tk. apply Tk.
    + unfold getCount. rewrite Ck, C0. lia.
    + rewrite Lgk, L0, C0. reflexivity.
  - assert (Ne : dts <> []) by (intros ->; cbn in Hl; lia).
    destruct (fires_exhaust dts Ne w0 P0 T0 S0)
      as (w' & F & S' & E' & C' & _ & L').
    { rewrite M0, Hl. reflexivity. }
    exists w'. repeat split; try assumption.
    + intros h. apply fire_none, E'.
    + rewrite L', L0, C0. reflexivity.
Qed.

Lemma start_fires_n_times_witness :
  let w := new 1000 quiet 0 in
  let dts := [1000; 1000; 1000] in
  ((forall v, quiet v = []) /\ reachable any_call 1000 quiet 0 w /\
   0 < 3 /\ Z.of_nat (length dts) = 3) /\
  exists w', fires dts (start (Some (Fin 3)) w) = Some w' /\
             _state (self w') = STOP /\ log w' = [1; 2; 3] /\
             getCount w' = 0.
Proof.
  intros w dts.
  assert (Q : forall v, quiet v = []) by reflexivity.
  assert (R : reachable any_call 1000 quiet 0 w) by apply reach_new.
  assert (Hn : 0 < 3) by lia.
  assert (Hl : Z.of_nat (length dts) = 3) by reflexivity.
  split; [repeat split; assumption|].
  destruct (start_fires_n_times 1000 0 quiet w 3 dts Q R Hn Hl)
    as (_ & w' & F & S' & _ & _ & L' & C').
  exists w'. repeat split; assumption.
Defined.

(** C1, as stated, fails: once the handler of the last firing has
    completed, [getCount()] is [0], not [n]. *)
Lemma getCount_after_last_firing :
  exists w',
    fires [1000; 1000] (start (Some (Fin 2)) (new 1000 quiet 0)) = Some w' /\
    _state (self w') = STOP /\ log w' = [1; 2] /\
    getCount w' = 0 /\ getCount w' <> 2.
Proof.
  eexists. split; [vm_compute; reflexivity|].
  cbn. repeat split; discriminate.
Qed.

(** ** The remaining fire count *)

(** C2, as amended: for a timer whose callback does not call back into
    the timer, in every state reachable by public operations in which the
    count given to [start] is absent, a non-negative integer, positive
    infinity or NaN, [_maxCount] is not negative; a running timer has
    [_maxCount > 0], every firing decrements it, and a firing that brings
    it to [0] leaves the timer stopped with nothing scheduled. *)
Theorem maxCount_never_negative (d t0 : Z) (cb : View -> list Call)
        (w : World) :
  (forall v, cb v = []) -> reachable count_ok d cb t0 w ->
  lt0 (_maxCount (self w)) = false /\
  (_state (self w) = PLAY -> gt0 (_maxCount (self w)) = true) /\
  (forall h w',
     fire h w = Some w' ->
     _maxCount (self w') = decr (_maxCount (self w)) /\
     (le0 (_maxCount (self w')) = true ->
      _state (self w') = STOP /\ tasks w' = [])).
Proof.
  intros Q R.
  pose proof (tidy_reachable _ _ _ _ _ Q R) as T.
  pose proof (passive_reachable _ _ _ _ _ Q R) as P.
  split; [apply (nonneg_reachable d cb t0 w Q R)|]. split.
  - intros St. unfold tidy in T. rewrite St in T. apply T.
  - intros h w' F.
    destruct (fire_passive h w w' P T F)
      as (_ & _ & _ & _ & M & _ & _ & _ & Run).
    split; [exact M|]. intros L.
    rewrite (le0_not_gt0 _ L) in Run. split; apply Run.
Qed.

Lemma maxCount_never_negative_witness :
  let w := start (Some (Fin 1)) (new 1000 quiet 0) in
  ((forall v, quiet v = []) /\ reachable count_ok 1000 quiet 0 w) /\
  lt0 (_maxCount (self w)) = false /\
  exists w', fire 1 w = Some w' /\ _maxCount (self w') = Fin 0 /\
             _state (self w') = STOP.
Proof.
  intros w.
  assert (Q : forall v, quiet v = []) by reflexivity.
  assert (R : reachable count_ok 1000 quiet 0 w).
  { apply (reach_step count_ok 1000 quiet 0 (new 1000 quiet 0) w
                      (Do (CStart (Some (Fin 1))))).
    - apply reach_new.
    - split; [reflexivity|exact I].
    - reflexivity. }
  split; [split; assumption|].
  destruct (maxCount_never_negative 1000 0 quiet w Q R) as (N & _ & Fr).
  split; [exact N|].
  destruct (fire 1 w) as [w'|] eqn:F; [|vm_compute in F; discriminate].
  destruct (Fr 1%nat w' F) as [M St].
  assert (M' : _maxCount (self w') = Fin 0) by (rewrite M; reflexivity).
  exists w'. repeat split; [exact M'|].
  apply St. rewrite M'. reflexivity.
Defined.

(** C2, as stated, fails.  [start(-1)] leaves a negative fire count.
    With counts that are not negative, a callback that calls [play()] at
    its first invocation leaves an interval scheduled that the timer has
    lost the handle of, which goes on firing after the count is exhausted;
    and [start(1/2)] fires once and leaves the count at [-1/2]. *)
Lemma maxCount_negative :
  (exists w,
     reachable any_call 1000 quiet 0 w /\
     _maxCount (self w) = Fin (-1) /\ lt0 (_maxCount (self w)) = true) /\
  (exists w,
     reachable count_ok 1000 plays_once 0 w /\
     _maxCount (self w) = Fin (-1) /\ lt0 (_maxCount (self w)) = true) /\
  (exists w,
     reachable count_nonneg 1000 quiet 0 w /\
     _maxCount (self w) = Rat (-1 # 2) /\ lt0 (_maxCount (self w)) = true).
Proof.
  split; [|split].
  - exists (start (Some (Fin (-1))) (new 1000 quiet 0)).
    split; [|split; reflexivity].
    apply (reachable_run any_call 1000 quiet 0
                         [Do (CStart (Some (Fin (-1))))] (new 1000 quiet 0)).
    + apply reach_new.
    + repeat constructor.
    + reflexivity.
  - destruct (run [Do (CStart (Some (Fin 3))); Fire 1; Fire 2; Fire 3; Fire 3]
                  (new 1000 plays_once 0)) as [w|] eqn:E;
      [|vm_compute in E; discriminate].
    exists w. split.
    + apply (reachable_run count_ok 1000 plays_once 0 _ _ w
                           (reach_new _ _ _ _)) in E; [exact E|].
      repeat constructor.
    + vm_compute in E. injection E as <-. split; reflexivity.
  - destruct (run [Do (CStart (Some (Rat (1 # 2)))); Fire 1]
                  (new 1000 quiet 0)) as [w|] eqn:E;
      [|vm_compute in E; discriminate].
    exists w. split.
    + apply (reachable_run count_nonneg 1000 quiet 0 _ _ w
                           (reach_new _ _ _ _)) in E; [exact E|].
      repeat constructor.
    + vm_compute in E. injection E as <-. split; reflexivity.
Qed.

(** ** The accumulated pause *)




(** ** The scheduler handle *)

(** C4, as amended: in every reachable state a running timer has a
    non-null [_interval], but not conversely: the field is null exactly as
    long as no task has ever been scheduled for the timer, that is until
    the first [play()] that finds fires left; once set it is never null
    again; [stop()] and [pause()] leave it as it is and cancel the task it
    names. *)
Theorem interval_handle (d t0 : Z) (cb : View -> list Call) (w : World) :
  reachable any_call d cb t0 w ->
  (_state (self w) = PLAY -> _interval (self w) <> None) /\
  (_interval (self w) = None <-> next_id w = 1%nat) /\
  (_interval (self w) = None -> tasks w = []) /\
  _interval (self (play w)) =
    (if gt0 (_maxCount (self w)) then Some (next_id w)
     else _interval (self w)) /\
  (forall e w', step e w = Some w' ->
                _interval (self w) <> None -> _interval (self w') <> None) /\
  _interval (self (stop w)) = _interval (self w) /\
  _interval (self (pause w)) = _interval (self w) /\
  (forall h, _interval (self w) = Some h ->
             find_task h (stop w) = None /\ find_task h (pause w) = None).
Proof.
  intros R. split; [apply (handle_ok_reachable _ _ _ _ _ R)|].
  pose proof (handle_inv_reachable _ _ _ _ _ R) as H.
  unfold handle_inv in H.
  split.
  { destruct (_interval (self w)).
    - split; [discriminate|]. intros E. lia.
    - split; [intros _; apply H|reflexivity]. }
  split.
  { intros E. rewrite E in H. apply H. }
  split.
  { rewrite play_self. destruct (gt0 _); [reflexivity|].
    rewrite stop_self. reflexivity. }
  split; [intros e w' S1; apply (handle_kept_step e w w' S1)|].
  split; [rewrite stop_self; reflexivity|].
  split; [rewrite pause_self; reflexivity|].
  intros h E. unfold find_task. rewrite stop_tasks, pause_tasks, E.
  split; apply find_task_clear.
Qed.

Lemma interval_handle_witness :
  let w := start None (start (Some (Fin 0)) (new 1000 quiet 0)) in
  reachable any_call 1000 quiet 0 w /\
  _state (self w) = PLAY /\ _interval (self w) = Some 1%nat /\
  _interval (self (stop w)) = Some 1%nat /\ find_task 1 (stop w) = None /\
  _interval (self (start (Some (Fin 0)) (new 1000 quiet 0))) = None.
Proof.
  intros w.
  assert (R0 : reachable any_call 1000 quiet 0
                         (start (Some (Fin 0)) (new 1000 quiet 0))).
  { apply (reach_step any_call 1000 quiet 0 (new 1000 quiet 0) _
                      (Do (CStart (Some (Fin 0))))).
    - apply reach_new.
    - exact I.
    - reflexivity. }
  assert (R : reachable any_call 1000 quiet 0 w).
  { apply (reach_step any_call 1000 quiet 0 _ w (Do (CStart None)) R0).
    - exact I.
    - reflexivity. }
  destruct (interval_handle 1000 0 quiet w R)
    as (_ & _ & _ & _ & _ & Es & _ & Cl).
  destruct (interval_handle 1000 0 quiet _ R0) as (_ & Nl & _).
  assert (E : _interval (self w) = Some 1%nat) by reflexivity.
  split; [exact R|]. split; [reflexivity|]. split; [exact E|].
  split; [rewrite Es; exact E|]. split; [apply (Cl 1%nat E)|].
  apply Nl. reflexivity.
Defined.

(** C4, as stated, fails: after [start()] and [stop()] the timer is
    stopped and the handle field is not null. *)
Lemma handle_kept_after_stop :
  exists w,
    reachable any_call 1000 quiet 0 w /\
    _state (self w) = STOP /\ _interval (self w) = Some 1%nat /\
    ~ (_interval (self w) <> None <-> _state (self w) = PLAY).
Proof.
  exists (stop (start None (new 1000 quiet 0))). split.
  - apply (reachable_run any_call 1000 quiet 0
                         [Do (CStart None); Do CStop] (new 1000 quiet 0)).
    + apply reach_new.
    + repeat constructor.
    + reflexivity.
  - vm_compute. repeat split. intros [H _].
    assert (C : STOP = PLAY) by (apply H; discriminate). discriminate C.
Qed.

(** ** Toggle, once and stop *)

Lemma state_play (w : World) :
  _state (self (play w)) = if gt0 (_maxCount (self w)) then PLAY else STOP.
Proof.
  rewrite play_self. destruct (gt0 _); [|rewrite stop_self]; reflexivity.
Qed.

(** C6, as amended: [toggle()] on a running timer pauses it; on a paused
    or a stopped timer it yields Running when fires are left
    ([_maxCount > 0]) and Stopped otherwise. *)
Theorem toggle_state (w : World) :
  _state (self (toggle w)) =
  match _state (self w) with
  | PLAY => PAUSE
  | STOP | PAUSE => if gt0 (_maxCount (self w)) then PLAY else STOP
  end.
Proof.
  unfold toggle, isRunning, getState.
  destruct (_state (self w)); cbn;
    rewrite ?pause_self, ?state_play; reflexivity.
Qed.

(** C6, as stated, fails: after [once()] and its one firing the timer is
    stopped with no fires left, and [toggle()] leaves it stopped; the same
    holds for the paused timer that [start(0)] and [pause()] leave. *)
Lemma toggle_exhausted_stays_stopped :
  (exists w,
     reachable any_call 1000 quiet 0 w /\ _state (self w) = STOP /\
     _state (self (toggle w)) = STOP /\ _state (self (toggle w)) <> PLAY) /\
  (exists w,
     reachable any_call 1000 quiet 0 w /\ _state (self w) = PAUSE /\
     _state (self (toggle w)) = STOP /\ _state (self (toggle w)) <> PLAY).
Proof.
  split.
  - destruct (run [Do COnce; Advance 1000; Fire 1] (new 1000 quiet 0))
      as [w|] eqn:E; [|vm_compute in E; discriminate].
    exists w. split.
    + apply (reachable_run any_call 1000 quiet 0 _ _ w
                           (reach_new _ _ _ _)) in E; [exact E|].
      repeat constructor.
    + vm_compute in E. injection E as <-.
      vm_compute. repeat split; discriminate.
  - exists (pause (start (Some (Fin 0)) (new 1000 quiet 0))). split.
    + apply (reachable_run any_call 1000 quiet 0
                           [Do (CStart (Some (Fin 0))); Do CPause]
                           (new 1000 quiet 0)).
      * apply reach_new.
      * repeat constructor.
      * reflexivity.
    + vm_compute. repeat split; discriminate.
Qed.

(** C7: [once()] is [start(1)]: the two calls give the same world, hence the
    same behaviour under every later sequence of events; and for a timer
    whose callback is passive that behaviour is one firing, after which
    the timer is stopped and nothing is scheduled. *)
Theorem once_is_start_1 (w : World) :
  once w = start (Some (Fin 1)) w /\
  (forall es, run es (exec COnce w)
              = run es (exec (CStart (Some (Fin 1))) w)) /\
  (passive w -> tidy w ->
   forall dt,
     _state (self (once w)) = PLAY /\ sole_task (once w) /\
     exists w', fires [dt] (once w) = Some w' /\
                _state (self w') = STOP /\ tasks w' = [] /\
                (forall h, fire h w' = None) /\
                log w' = log w ++ [1]).
Proof.
  split; [reflexivity|]. split; [reflexivity|].
  intros P T dt. unfold once.
  destruct (start_state (Some (Fin 1)) w T) as (T0 & M0 & C0 & _ & L0 & S0).
  cbn in S0.
  assert (P0 : passive (start (Some (Fin 1)) w)).
  { intros v.
    change (start (Some (Fin 1)) w) with (exec (CStart (Some (Fin 1))) w).
    rewrite callback_exec. apply P. }
  split; [exact S0|]. split.
  { unfold tidy in T0. rewrite S0 in T0. apply T0. }
  destruct (fires_exhaust [dt] ltac:(discriminate) _ P0 T0 S0 M0)
    as (w' & F & S' & E' & _ & _ & L').
  exists w'. repeat split; try assumption.
  - intros h. apply fire_none, E'.
  - rewrite L', L0, C0. reflexivity.
Qed.

Lemma once_is_start_1_witness :
  let w := new 0 quiet 0 in
  (passive w /\ tidy w) /\
  exists w', fires [0] (once w) = Some w' /\ _state (self w') = STOP /\
             log w' = [1].
Proof.
  intros w.
  assert (P : passive w) by (intros v; reflexivity).
  assert (T : tidy w) by reflexivity.
  split; [split; assumption|].
  destruct (once_is_start_1 w) as (_ & _ & B).
  destruct (B P T 0) as (_ & _ & w' & F & S' & _ & _ & L').
  exists w'. repeat split; assumption.
Defined.

(** C8: [stop()] leaves [_maxCount], [_delay], [_callback] and [_interval]
    as they are, so that [play()] or [toggle()] after a stop with no fires
    left leaves the timer stopped. *)
Theorem stop_frame (w : World) :
  _maxCount (self (stop w)) = _maxCount (self w) /\
  _delay (self (stop w)) = _delay (self w) /\
  _callback (self (stop w)) = _callback (self w) /\
  _interval (self (stop w)) = _interval (self w) /\
  (le0 (_maxCount (self w)) = true ->
   _state (self (play (stop w))) = STOP /\
   _state (self (toggle (stop w))) = STOP).
Proof.
  rewrite !stop_self. cbn.
  do 4 (split; [reflexivity|]).
  intros L. apply le0_not_gt0 in L. split.
  - rewrite play_self, !stop_self. cbn. rewrite L. reflexivity.
  - unfold toggle, isRunning, getState. rewrite stop_self. cbn.
    rewrite state_play, stop_self. cbn. rewrite L. reflexivity.
Qed.

Lemma stop_frame_witness :
  exists w,
    fires [1000] (once (new 1000 quiet 0)) = Some w /\
    le0 (_maxCount (self w)) = true /\
    _state (self (play (stop w))) = STOP /\
    _state (self (toggle (stop w))) = STOP.
Proof.
  destruct (fires [1000] (once (new 1000 quiet 0))) as [w|] eqn:E;
    [|vm_compute in E; discriminate].
  exists w. split; [reflexivity|].
  assert (L : le0 (_maxCount (self w)) = true).
  { vm_compute in E. injection E as <-. reflexivity. }
  split; [exact L|].
  destruct (stop_frame w) as (_ & _ & _ & _ & B). apply (B L).
Defined.

(** ** A fresh timer *)

(** C9: a freshly constructed timer has [_maxCount] positive infinity,
    [_count] and [_pausedTime] zero and is stopped; [play()] or [toggle()]
    on it, with no [start()] before, enters Running, and with a passive
    callback any number of firings follow, the timer still running with
    its task scheduled after each. *)
Theorem fresh_timer (d t0 : Z) (cb : View -> list Call) :
  let w0 := new d cb t0 in
  _maxCount (self w0) = PInf /\ _count (self w0) = 0 /\
  _pausedTime (self w0) = 0 /\ _state (self w0) = STOP /\
  (forall dt,
     _state (self (play (advance dt w0))) = PLAY /\
     toggle (advance dt w0) = play (advance dt w0)) /\
  ((forall v, cb v = []) ->
   forall dt dts,
     exists w', fires dts (play (advance dt w0)) = Some w' /\
                _state (self w') = PLAY /\ sole_task w' /\
                _maxCount (self w') = PInf /\
                log w' = counts_from 0 (length dts)).
Proof.
  intros w0.
  split; [reflexivity|]. split; [reflexivity|]. split; [reflexivity|].
  split; [reflexivity|]. split.
  - intros dt. split; [rewrite play_self|]; reflexivity.
  - intros Q dt dts.
    assert (T0 : tidy (play (advance dt w0))) by (apply tidy_play; reflexivity).
    assert (P0 : passive (play (advance dt w0))).
    { intros v. rewrite callback_play. apply Q. }
    assert (S0 : _state (self (play (advance dt w0))) = PLAY)
      by (rewrite play_self; reflexivity).
    assert (M0 : _maxCount (self (play (advance dt w0))) = PInf)
      by (rewrite play_self; reflexivity).
    destruct (fires_running dts _ P0 T0 S0)
      as (w' & F & _ & T' & S' & M' & _ & _ & L').
    { rewrite M0. reflexivity. }
    exists w'.
    split; [exact F|]. split; [exact S'|]. split.
    { unfold tidy in T'. rewrite S' in T'. apply T'. }
    split; [rewrite M', M0; reflexivity|].
    rewrite L', play_log, play_self. reflexivity.
Qed.

Lemma fresh_timer_witness :
  (forall v, quiet v = []) /\
  exists w', fires [1000; 1000; 1000; 1000]
                   (play (advance 5 (new 1000 quiet 0))) = Some w' /\
             _state (self w') = PLAY /\ _maxCount (self w') = PInf /\
             log w' = [1; 2; 3; 4].
Proof.
  assert (Q : forall v, quiet v = []) by reflexivity.
  split; [exact Q|].
  destruct (fresh_timer 1000 0 quiet) as (_ & _ & _ & _ & _ & B).
  destruct (B Q 5 [1000; 1000; 1000; 1000]) as (w' & F & S' & _ & M' & L').
  exists w'. repeat split; assumption.
Defined.

(** * Further properties of the methods *)

(** ** Stopping and pausing *)

Lemma pause_eq (w : World) :
  pause w =
  mkWorld (mkTimer (_delay (self w)) (_callback (self w))
                   (_maxCount (self w)) (_count (self w))
                   (_pausedTime (self w)) (getCurrentTime w)
                   (_lastTime (self w)) (_interval (self w)) PAUSE)
          (now w) (next_id w) (tasks (clear (_interval (self w)) w))
          (log w).
Proof.
  etransitivity; [apply World_eta|].
  rewrite pause_self, pause_now, pause_next_id, pause_tasks, pause_log.
  reflexivity.
Qed.

Lemma clear_twice h (w : World) : clear h (clear h w) = clear h w.
Proof.
  destruct h as [i|]; [|reflexivity]. unfold clear. cbn.
  rewrite filter_twice. reflexivity.
Qed.

(** X1: [stop()] twice in a row is [stop()] once; after [stop()], from
    whatever state, the count is [0], the state is Stopped and the
    elapsed time reads [0] and stays [0] while the clock moves on. *)
Theorem stop_idempotent (w : World) :
  stop (stop w) = stop w /\
  getCount (stop w) = 0 /\ getState (stop w) = STOP /\
  forall dt, getElapsedTime (advance dt (stop w)) = 0.
Proof.
  split.
  - etransitivity; [apply stop_eq|].
    symmetry. etransitivity; [apply stop_eq|]. symmetry.
    rewrite stop_self, stop_now, stop_next_id, stop_log. cbn. f_equal.
    rewrite tasks_clear, stop_tasks, tasks_clear.
    destruct (_interval (self w)); [apply filter_twice|reflexivity].
  - split; [unfold getCount; rewrite stop_self; reflexivity|].
    split; [unfold getState; rewrite stop_self; reflexivity|].
    intros dt. unfold getElapsedTime, getCurrentTime, isRunning, getState.
    rewrite self_advance, stop_self. cbn. lia.
Qed.

Lemma pause_freezes_time_aux (w : World) (dt : Z) :
  getCurrentTime (advance dt (pause w)) = getCurrentTime w /\
  getElapsedTime (advance dt (pause w)) = getElapsedTime w /\
  getRemainingTime (advance dt (pause w)) = getRemainingTime w.
Proof.
  assert (C : getCurrentTime (advance dt (pause w)) = getCurrentTime w).
  { unfold getCurrentTime at 1, isRunning, getState. cbn.
    rewrite pause_self. reflexivity. }
  assert (E : getElapsedTime (advance dt (pause w)) = getElapsedTime w).
  { unfold getElapsedTime. rewrite C. cbn. rewrite pause_self. reflexivity. }
  split; [exact C|]. split; [exact E|].
  unfold getRemainingTime. rewrite E. cbn. rewrite pause_self. reflexivity.
Qed.

(** X2: [pause()] twice in a row is [pause()] once, and a paused timer's
    clock is frozen: however long it stays paused, [getCurrentTime()],
    [getElapsedTime()] and [getRemainingTime()] read what they read at the
    moment of the pause. *)
Theorem pause_freezes_time (w : World) (dt : Z) :
  pause (pause w) = pause w /\
  getCurrentTime (advance dt (pause w)) = getCurrentTime w /\
  getElapsedTime (advance dt (pause w)) = getElapsedTime w /\
  getRemainingTime (advance dt (pause w)) = getRemainingTime w.
Proof.
  split; [|apply pause_freezes_time_aux].
  assert (G : getCurrentTime (pause w) = getCurrentTime w).
  { unfold getCurrentTime at 1, isRunning, getState.
    rewrite pause_self. reflexivity. }
  etransitivity; [apply pause_eq|].
  symmetry. etransitivity; [apply pause_eq|]. symmetry.
  rewrite G, pause_self, pause_now, pause_next_id, pause_log. cbn. f_equal.
  rewrite tasks_clear, pause_tasks, tasks_clear.
  destruct (_interval (self w)); [apply filter_twice|reflexivity].
Qed.

(** ** Resuming *)

Lemma play_getCurrentTime (w : World) :
  gt0 (_maxCount (self w)) = true ->
  getCurrentTime (play w) = getCurrentTime w.
Proof.
  intros G. unfold getCurrentTime at 1, isRunning, getState.
  rewrite play_self, play_now, G. cbn. lia.
Qed.

Lemma play_getElapsedTime (w : World) :
  gt0 (_maxCount (self w)) = true ->
  getElapsedTime (play w) = getElapsedTime w.
Proof.
  intros G. unfold getElapsedTime. rewrite (play_getCurrentTime w G).
  rewrite play_self, G. reflexivity.
Qed.

(** X3: pausing a running timer for [dt] ms and resuming it with [play()]
    leaves the timer's own clock where it was: [getCurrentTime()] and
    [getElapsedTime()] read the same as before the pause, the accumulated
    pause has grown by exactly [dt], from then on the timer's clock moves
    with the wall clock, and the task scheduled is a timeout after the time
    that remained when the timer was paused. *)
Theorem pause_resume (w : World) (dt : Z) :
  _state (self w) = PLAY -> gt0 (_maxCount (self w)) = true ->
  let w' := play (advance dt (pause w)) in
  _state (self w') = PLAY /\
  getCurrentTime w' = getCurrentTime w /\
  getElapsedTime w' = getElapsedTime w /\
  _pausedTime (self w') = _pausedTime (self w) + dt /\
  (forall d2, getCurrentTime (advance d2 w') = getCurrentTime w + d2) /\
  tasks w' = tasks (clear (_interval (self w)) w)
             ++ [mkTask (next_id w) Timeout (getRemainingTime w)] /\
  _interval (self w') = Some (next_id w).
Proof.
  intros St G w'.
  destruct (pause_freezes_time_aux w dt) as (C & E & Rm).
  assert (G' : gt0 (_maxCount (self (advance dt (pause w)))) = true)
    by (cbn; rewrite pause_self; exact G).
  assert (Cw : getCurrentTime w' = getCurrentTime w)
    by (unfold w'; rewrite (play_getCurrentTime _ G'); exact C).
  assert (Pw : _pausedTime (self w') = _pausedTime (self w) + dt).
  { unfold w'. rewrite play_self, G'. cbn. rewrite C.
    unfold getCurrentTime, isRunning, getState. rewrite St.
    rewrite pause_now. cbn. lia. }
  assert (Sw : _state (self w') = PLAY)
    by (unfold w'; rewrite play_self, G'; reflexivity).
  split; [exact Sw|]. split; [exact Cw|]. split.
  { unfold w'. rewrite (play_getElapsedTime _ G'). exact E. }
  split; [exact Pw|]. split.
  { intros d2. unfold getCurrentTime at 1, isRunning, getState. cbn.
    rewrite Sw. cbn. rewrite Pw.
    unfold w'. rewrite play_now. cbn. rewrite pause_now.
    unfold getCurrentTime, isRunning, getState. rewrite St. cbn. lia. }
  unfold w'. rewrite play_tasks, play_self, G', Rm. cbn.
  rewrite pause_self, pause_next_id. cbn. split; [|reflexivity].
  f_equal. rewrite !tasks_clear. cbn. rewrite pause_tasks, tasks_clear.
  destruct (_interval (self w)); [apply filter_twice|reflexivity].
Qed.

Lemma pause_resume_witness :
  let w := advance 400 (start None (new 1000 quiet 0)) in
  (_state (self w) = PLAY /\ gt0 (_maxCount (self w)) = true) /\
  let w' := play (advance 1000 (pause w)) in
  getCurrentTime w' = 400 /\ _pausedTime (self w') = 1000 /\
  tasks w' = [mkTask 2 Timeout 600].
Proof.
  intros w.
  assert (St : _state (self w) = PLAY) by reflexivity.
  assert (G : gt0 (_maxCount (self w)) = true) by reflexivity.
  split; [split; assumption|].
  destruct (pause_resume w 1000 St G) as (_ & C & _ & P & _ & T & _).
  intros w'. subst w'. split; [rewrite C; reflexivity|].
  split; [rewrite P; reflexivity|].
  rewrite T. vm_compute. reflexivity.
Defined.

(** ** Phase of the next firing *)

Lemma remaining_time_phase_aux (w : World) :
  0 < _delay (self w) ->
  getRemainingTime w
  = _delay (self w) - getElapsedTime w mod _delay (self w).
Proof.
  intros Hd. unfold getRemainingTime.
  destruct (Z.ltb_spec 0 (_delay (self w))) as [_|]; [|lia].
  pose proof (Math_ceil_div_is_ceil (getElapsedTime w + 1) _ Hd) as C.
  unfold is_ceil in C.
  set (k := Math_ceil_div _ _) in *.
  set (e := getElapsedTime w) in *. set (d := _delay (self w)) in *.
  pose proof (Z.div_mod e d ltac:(lia)) as Ed.
  pose proof (Z.mod_pos_bound e d Hd) as B.
  assert (k = e / d + 1) by nia. subst k. nia.
Qed.

(** X4: with a positive integer delay, [getRemainingTime()] is the delay
    minus the elapsed time modulo the delay, so the elapsed time at the
    next firing is a multiple of the delay, and the wait is never zero. *)
Theorem remaining_time_phase (w : World) :
  0 < getDelay w ->
  getRemainingTime w = getDelay w - getElapsedTime w mod getDelay w /\
  (getElapsedTime w + getRemainingTime w) mod getDelay w = 0 /\
  0 < getRemainingTime w <= getDelay w.
Proof.
  intros Hd. unfold getDelay in *.
  pose proof (remaining_time_phase_aux w Hd) as R.
  pose proof (Z.mod_pos_bound (getElapsedTime w) _ Hd) as B.
  split; [exact R|]. split; [|lia].
  rewrite R.
  pose proof (Z.div_mod (getElapsedTime w) (_delay (self w)) ltac:(lia)) as Ed.
  replace (getElapsedTime w
           + (_delay (self w) - getElapsedTime w mod _delay (self w)))
    with ((getElapsedTime w / _delay (self w) + 1) * _delay (self w)) by lia.
  apply Z.mod_mul. lia.
Qed.

Lemma remaining_time_phase_witness :
  let w := pause (advance 2400 (start None (new 1000 quiet 0))) in
  0 < getDelay w /\ getRemainingTime w = 600.
Proof.
  intros w.
  assert (Hd : 0 < getDelay w) by (vm_compute; reflexivity).
  split; [exact Hd|].
  destruct (remaining_time_phase w Hd) as (R & _).
  rewrite R. vm_compute. reflexivity.
Defined.

(** ** Starting *)

Lemma Math_ceil_div_1 (d : Z) : 0 < d -> Math_ceil_div 1 d = 1.
Proof.
  intros Hd.
  apply (is_ceil_unique _ _ 1 d Hd (Math_ceil_div_is_ceil 1 d Hd)).
  unfold is_ceil. lia.
Qed.

(** With no time elapsed the wait is the whole delay. *)
Lemma getRemainingTime_fresh (w : World) :
  getElapsedTime w = 0 -> getRemainingTime w = Z.max 0 (_delay (self w)).
Proof.
  intros E. unfold getRemainingTime. rewrite E. cbn.
  destruct (Z.ltb_spec 0 (_delay (self w))) as [Hd|Hd]; [|lia].
  rewrite (Math_ceil_div_1 _ Hd). lia.
Qed.

Lemma stop_getElapsedTime (w : World) : getElapsedTime (stop w) = 0.
Proof.
  unfold getElapsedTime, getCurrentTime, isRunning, getState.
  rewrite stop_self. cbn. lia.
Qed.

(** X5: for an integer delay, [start(n)] with fires to make ([n] positive,
    or no [n]) cancels the timer's task and schedules one timeout, after
    the whole delay (after [0] ms when the delay is not positive); the
    timer is running, its count and its elapsed time are [0] and the
    last-tick time is the time [stop()] read, whatever the clock reads
    when [play()] reads it again. *)
Theorem start_schedules_delay (n : option Num) (w : World) (t2 : Z) :
  gt0 (match n with None => PInf | Some m => m end) = true ->
  let w1 := start_at t2 n w in
  tasks w1 = tasks (clear (_interval (self w)) w)
             ++ [mkTask (next_id w) Timeout (Z.max 0 (_delay (self w)))] /\
  _interval (self w1) = Some (next_id w) /\
  _state (self w1) = PLAY /\ getCount w1 = 0 /\
  getElapsedTime w1 = 0 /\ _lastTime (self w1) = now w /\
  start_at (now w) n w = start n w.
Proof.
  intros G w1. subst w1. unfold start_at.
  set (u := with_self (set_maxCount _) w).
  set (x := set_now t2 (stop u)).
  assert (Sx : self x = self (stop u)) by reflexivity.
  assert (Gx : gt0 (_maxCount (self x)) = true)
    by (rewrite Sx, stop_self; exact G).
  assert (Ex : getElapsedTime x = 0).
  { unfold getElapsedTime, getCurrentTime, isRunning, getState.
    rewrite Sx, stop_self. cbn. lia. }
  assert (Tx : tasks (clear (_interval (self x)) x)
               = tasks (clear (_interval (self w)) w)).
  { rewrite Sx, stop_self. cbn. rewrite tasks_clear.
    change (tasks x) with (tasks (stop u)).
    rewrite stop_tasks, tasks_clear. cbn. rewrite tasks_clear.
    destruct (_interval (self w)); [apply filter_twice|reflexivity]. }
  rewrite play_at_tasks, play_tasks, play_at_self, Gx, Tx.
  rewrite (play_at_getElapsedTime _ _ Gx), Ex.
  rewrite (getRemainingTime_fresh _ Ex).
  change (next_id x) with (next_id (stop u)).
  rewrite Sx, !stop_self, stop_next_id. cbn.
  do 3 (split; [reflexivity|]).
  split; [unfold getCount; rewrite play_at_self, Gx, Sx, stop_self;
          reflexivity|].
  do 2 (split; [reflexivity|]).
  apply start_at_same.
Qed.

Lemma start_schedules_delay_witness :
  gt0 (Fin 5) = true /\
  tasks (start_at 3 (Some (Fin 5)) (start None (new 1000 quiet 0)))
  = [mkTask 2 Timeout 1000].
Proof.
  assert (G : gt0 (Fin 5) = true) by reflexivity.
  split; [exact G|].
  destruct (start_schedules_delay (Some (Fin 5))
                                  (start None (new 1000 quiet 0)) 3 G)
    as (T & _).
  rewrite T. vm_compute. reflexivity.
Defined.

(** X6: [start(n)] with [n] zero, negative or NaN only stops the timer:
    its task is cancelled, nothing is scheduled, no handle is taken, the
    count is [0], [_maxCount] is [n], and a later [play()] or [toggle()]
    leaves the timer stopped. *)
Theorem start_without_fires (m : Num) (w : World) :
  gt0 m = false ->
  let w1 := start (Some m) w in
  _state (self w1) = STOP /\
  tasks w1 = tasks (clear (_interval (self w)) w) /\
  next_id w1 = next_id w /\ _interval (self w1) = _interval (self w) /\
  getCount w1 = 0 /\ _maxCount (self w1) = m /\
  _state (self (play w1)) = STOP /\ _state (self (toggle w1)) = STOP.
Proof.
  intros G w1. subst w1. unfold start.
  set (u := with_self (set_maxCount m) w).
  assert (Gs : gt0 (_maxCount (self (stop u))) = false)
    by (rewrite stop_self; exact G).
  assert (Gss : gt0 (_maxCount (self (stop (stop u)))) = false)
    by (rewrite stop_self; exact Gs).
  assert (Gp : gt0 (_maxCount (self (play (stop u)))) = false)
    by (rewrite play_self, Gs; exact Gss).
  assert (Sp : _state (self (play (stop u))) = STOP)
    by (rewrite state_play, Gs; reflexivity).
  split; [exact Sp|].
  rewrite play_tasks, play_next_id, play_self, Gs.
  rewrite !stop_self, stop_next_id. cbn.
  split.
  { rewrite tasks_clear, stop_tasks, tasks_clear. cbn. rewrite tasks_clear.
    destruct (_interval (self w)); [apply filter_twice|reflexivity]. }
  do 2 (split; [reflexivity|]).
  split; [unfold getCount; rewrite play_self, Gs, !stop_self; reflexivity|].
  split; [reflexivity|].
  split; [rewrite state_play, Gp; reflexivity|].
  unfold toggle, isRunning, getState. rewrite Sp. cbn.
  rewrite state_play, Gp. reflexivity.
Qed.

Lemma start_without_fires_witness :
  gt0 NaN = false /\
  let w1 := start (Some NaN) (start None (new 1000 quiet 0)) in
  _state (self w1) = STOP /\ tasks w1 = [].
Proof.
  assert (G : gt0 NaN = false) by reflexivity.
  split; [exact G|].
  destruct (start_without_fires NaN (start None (new 1000 quiet 0)) G)
    as (S1 & T & _).
  intros w1. subst w1. split; [exact S1|].
  rewrite T. vm_compute. reflexivity.
Defined.

(** ** Changing the delay *)

(** X7: [setDelay(d)], for an integer [d], always makes [getDelay()]
    return [d].  On a timer that is not running it changes nothing else
    and schedules nothing; the new delay is used by the next [play()].  On
    a running timer with fires left it replaces the timer's task by a
    timeout whose wait is computed with the new delay from the elapsed
    time, [d - elapsed mod d], or [0] when [d] is not positive; the
    elapsed time, the last-tick time and the count are unchanged, so that
    the phase is kept relative to the last firing and not to the call,
    whatever the clock reads at the second read [play()] makes of it. *)
Theorem setDelay_effect (d : Z) (w : World) (t2 : Z) :
  getDelay (setDelay_at t2 d w) = d /\
  (isRunning w = false ->
   setDelay_at t2 d w = with_self (set_delay d) w /\
   tasks (setDelay_at t2 d w) = tasks w /\
   (gt0 (_maxCount (self w)) = true ->
    tasks (play_at t2 (setDelay_at t2 d w)) =
      tasks (clear (_interval (self w)) w)
      ++ [mkTask (next_id w) Timeout
                 (if 0 <? d then d - getElapsedTime w mod d else 0)])) /\
  (isRunning w = true -> gt0 (_maxCount (self w)) = true ->
   _state (self (setDelay_at t2 d w)) = PLAY /\
   getElapsedTime (setDelay_at t2 d w) = getElapsedTime w /\
   _lastTime (self (setDelay_at t2 d w)) = _lastTime (self w) /\
   getCount (setDelay_at t2 d w) = getCount w /\
   tasks (setDelay_at t2 d w) =
     tasks (clear (_interval (self w)) w)
     ++ [mkTask (next_id w) Timeout
                (if 0 <? d then d - getElapsedTime w mod d else 0)]) /\
  setDelay_at (now w) d w = setDelay d w.
Proof.
  unfold setDelay_at.
  change (isRunning (with_self (set_delay d) w)) with (isRunning w).
  set (u := with_self (set_delay d) w).
  assert (Ru : getRemainingTime u
               = if 0 <? d then d - getElapsedTime w mod d else 0).
  { change (getElapsedTime w) with (getElapsedTime u).
    destruct (Z.ltb_spec 0 d) as [Hd|Hd].
    - apply (remaining_time_phase_aux u Hd).
    - unfold getRemainingTime. cbn.
      destruct (Z.ltb_spec 0 d); [lia|reflexivity]. }
  assert (Tu : tasks (clear (_interval (self w)) u)
               = tasks (clear (_interval (self w)) w))
    by (destruct (_interval (self w)); reflexivity).
  assert (Pu : gt0 (_maxCount (self w)) = true ->
               tasks (play_at t2 u) =
               tasks (clear (_interval (self w)) w)
               ++ [mkTask (next_id w) Timeout
                          (if 0 <? d then d - getElapsedTime w mod d
                           else 0)]).
  { intros G. rewrite play_at_tasks, play_tasks. cbn.
    rewrite G, Tu, Ru. reflexivity. }
  split.
  { unfold getDelay. destruct (isRunning w); [|reflexivity].
    rewrite play_at_self. destruct (gt0 _); [reflexivity|].
    rewrite stop_self. reflexivity. }
  split.
  { intros Rn. rewrite Rn.
    split; [reflexivity|]. split; [reflexivity|]. exact Pu. }
  split.
  { intros Rn G. rewrite Rn.
    assert (Gu : gt0 (_maxCount (self u)) = true) by exact G.
    unfold getCount.
    rewrite (Pu G), play_at_self, (play_at_getElapsedTime t2 u Gu), Gu. cbn.
    do 4 (split; [reflexivity|]). reflexivity. }
  apply (setDelay_at_same d w).
Qed.

Lemma setDelay_effect_witness :
  let w := advance 2400 (start None (new 1000 quiet 0)) in
  (isRunning w = true /\ gt0 (_maxCount (self w)) = true) /\
  tasks (setDelay_at 2403 700 w) = [mkTask 2 Timeout 400] /\
  (isRunning (pause w) = false /\
   tasks (setDelay_at 2403 700 (pause w)) = []).
Proof.
  intros w.
  assert (Rn : isRunning w = true) by reflexivity.
  assert (G : gt0 (_maxCount (self w)) = true) by reflexivity.
  assert (Rp : isRunning (pause w) = false) by reflexivity.
  split; [split; assumption|].
  destruct (setDelay_effect 700 w 2403) as (_ & _ & B & _).
  destruct (B Rn G) as (_ & _ & _ & _ & T).
  destruct (setDelay_effect 700 (pause w) 2403) as (_ & A & _).
  destruct (A Rp) as (_ & Tp & _).
  split; [rewrite T; vm_compute; reflexivity|].
  split; [exact Rp|]. rewrite Tp. vm_compute. reflexivity.
Defined.

(** ** Invocations of the callback *)

Lemma log_exec (c : Call) (w : World) : log (exec c w) = log w.
Proof.
  destruct c; cbn.
  - unfold start. rewrite play_log, stop_log. reflexivity.
  - apply stop_log.
  - apply play_log.
  - apply pause_log.
  - unfold toggle. destruct (isRunning w); [apply pause_log|apply play_log].
  - unfold setDelay. destruct (isRunning _); [|reflexivity].
    rewrite play_log. reflexivity.
  - unfold once, start. rewrite play_log, stop_log. reflexivity.
Qed.

Lemma log_execs (cs : list Call) :
  forall w, log (fold_left (fun w c => exec c w) cs w) = log w.
Proof.
  induction cs as [|c cs IH]; intros w; cbn; [reflexivity|].
  rewrite IH. apply log_exec.
Qed.

Lemma log_tick (w : World) : log (tick w) = log w ++ [_count (self w) + 1].
Proof. unfold tick, invoke. rewrite log_execs. reflexivity. Qed.

Lemma log_fire (h : nat) (w w' : World) :
  fire h w = Some w' -> log w' = log w ++ [_count (self w) + 1].
Proof.
  unfold fire. destruct (find_task h w) as [t|]; [|discriminate].
  destruct (kind t); intros [= <-].
  - unfold on_timeout.
    assert (L : log (tick (clear (Some h) w))
                = log w ++ [_count (self w) + 1])
      by (rewrite log_tick; reflexivity).
    destruct (isRunning _); [|exact L].
    destruct (gt0 _); [exact L|]. rewrite stop_log. exact L.
  - unfold on_interval.
    destruct (le0 _); [rewrite stop_log|]; apply log_tick.
Qed.

(** X8: no public method invokes the callback, and every firing invokes
    it exactly once, with the count already incremented; so along any
    sequence of events the callback has been invoked once per firing,
    whatever the callback itself does to the timer. *)
Theorem callback_once_per_firing (w : World) :
  (forall c, log (exec c w) = log w) /\
  (forall h w', fire h w = Some w' -> log w' = log w ++ [getCount w + 1]) /\
  (forall es w', run es w = Some w' ->
                 length (log w') = (length (log w) + fired es)%nat).
Proof.
  split; [intros c; apply log_exec|].
  split; [intros h w' F; apply (log_fire h w w' F)|].
  intros es. revert w.
  induction es as [|e es IH]; intros w w' R; cbn in R.
  - injection R as <-. unfold fired. cbn. lia.
  - destruct (step e w) as [w1|] eqn:S1; [|discriminate].
    rewrite (IH w1 w' R). unfold fired.
    destruct e; cbn in S1; cbn [filter length].
    + injection S1 as <-. reflexivity.
    + rewrite (log_fire _ _ _ S1), length_app. cbn. lia.
    + injection S1 as <-. rewrite log_exec. reflexivity.
Qed.

Lemma callback_once_per_firing_witness :
  let w := start (Some (Fin 3)) (new 1000 plays_once 0) in
  exists w', run [Fire 1; Fire 2; Do CPause; Fire 3] w = Some w' /\
             length (log w') = 3%nat.
Proof.
  intros w.
  destruct (run [Fire 1; Fire 2; Do CPause; Fire 3] w) as [w'|] eqn:R;
    [|vm_compute in R; discriminate].
  exists w'. split; [reflexivity|].
  destruct (callback_once_per_firing w) as (_ & _ & B).
  rewrite (B _ w' R). reflexivity.
Defined.

(** ** Calls made from inside the callback *)

Lemma owned_clear (w : World) :
  owned w -> tasks (clear (_interval (self w)) w) = [].
Proof.
  unfold owned. intros O. rewrite tasks_clear.
  destruct (_interval (self w)) as [i|] eqn:Ei.
  - induction (tasks w) as [|t l IH]; [reflexivity|]. cbn.
    assert (Et : tid t = i).
    { specialize (O t (or_introl eq_refl)). congruence. }
    rewrite Et, Nat.eqb_refl. cbn. apply IH.
    intros t' In'. apply O. right. exact In'.
  - destruct (tasks w) as [|t l]; [reflexivity|].
    specialize (O t (or_introl eq_refl)). discriminate.
Qed.

Lemma owned_nil (w : World) : tasks w = [] -> owned w.
Proof. unfold owned. intros -> t []. Qed.

Lemma owned_stop (w : World) : owned w -> owned (stop w).
Proof.
  intros O. apply owned_nil. rewrite stop_tasks. apply owned_clear, O.
Qed.

Lemma owned_pause (w : World) : owned w -> owned (pause w).
Proof.
  intros O. apply owned_nil. rewrite pause_tasks. apply owned_clear, O.
Qed.

Lemma owned_play (w : World) : owned w -> owned (play w).
Proof.
  intros O. unfold owned. rewrite play_self, play_tasks.
  destruct (gt0 _).
  - rewrite (owned_clear w O). cbn. intros t [<-|[]]. reflexivity.
  - rewrite (owned_clear w O). intros t [].
Qed.

Lemma owned_exec (c : Call) (w : World) : owned w -> owned (exec c w).
Proof.
  intros O. destruct c; cbn.
  - unfold start. apply owned_play, owned_stop. exact O.
  - apply owned_stop, O.
  - apply owned_play, O.
  - apply owned_pause, O.
  - unfold toggle. destruct (isRunning w);
      [apply owned_pause|apply owned_play]; exact O.
  - unfold setDelay. destruct (isRunning _); [apply owned_play|]; exact O.
  - unfold once, start. apply owned_play, owned_stop. exact O.
Qed.

Lemma owned_execs (cs : list Call) :
  forall w, owned w -> owned (fold_left (fun w c => exec c w) cs w).
Proof.
  induction cs as [|c cs IH]; intros w O; cbn; [exact O|].
  apply IH, owned_exec, O.
Qed.

Lemma seen_clear (h : option nat) (w : World) : seen (clear h w) = seen w.
Proof. destruct h; reflexivity. Qed.

(** When the last call of the callback is [stop()], the handler gets back
    a stopped timer with nothing scheduled. *)
Lemma tick_ends_in_stop (w : World) :
  owned w ->
  (exists cs, _callback (self w) (seen w) = cs ++ [CStop]) ->
  _state (self (tick w)) = STOP /\ tasks (tick w) = [] /\
  _count (self (tick w)) = 0.
Proof.
  intros O [cs E]. unfold tick, invoke.
  set (w1 := with_self (set_count _) (with_self (set_lastTime _) w)).
  change (_callback (self w1) (view w1)) with (_callback (self w) (seen w)).
  rewrite E, fold_left_app. cbn [fold_left exec].
  set (x := fold_left _ cs _).
  assert (Ox : owned x) by (apply owned_execs; exact O).
  rewrite stop_self, stop_tasks. cbn.
  repeat split. apply owned_clear, Ox.
Qed.

(** X9: when a task of a timer that holds the handle of every scheduled
    task fires and the last thing the callback does at that firing is
    [this.stop()], the handler leaves the timer stopped with nothing
    scheduled and the count [0], in the timeout handler and in the
    interval handler alike. *)
Theorem stop_in_callback (h : nat) (w w' : World) :
  owned w ->
  (exists cs, _callback (self w) (seen w) = cs ++ [CStop]) ->
  fire h w = Some w' ->
  _state (self w') = STOP /\ tasks w' = [] /\ getCount w' = 0.
Proof.
  intros O Q F. unfold fire in F.
  destruct (find_task h w) as [t|]; [|discriminate].
  destruct (kind t); injection F as <-.
  - assert (O0 : owned (clear (Some h) w)).
    { intros t' In'. apply O. unfold clear in In'. cbn in In'.
      apply filter_In in In'. apply In'. }
    assert (Q0 : exists cs, _callback (self (clear (Some h) w))
                                      (seen (clear (Some h) w))
                            = cs ++ [CStop])
      by (rewrite seen_clear; exact Q).
    destruct (tick_ends_in_stop _ O0 Q0) as (St & Ts & Ct).
    unfold on_timeout, isRunning, getState.
    set (y := tick (clear (Some h) w)) in *. clearbody y.
    rewrite St. cbn. repeat split; assumption.
  - destruct (tick_ends_in_stop _ O Q) as (St & Ts & Ct).
    unfold on_interval. set (y := tick w) in *. clearbody y.
    destruct (le0 _).
    + unfold getCount. rewrite stop_self, stop_tasks, tasks_clear. cbn.
      rewrite Ts. repeat split. destruct (_interval _); reflexivity.
    + cbn. repeat split; assumption.
Qed.

Lemma stop_in_callback_witness :
  exists w,
    run [Do (CStart None); Advance 1000; Fire 1; Advance 1000]
        (new 1000 stops_at_2 0) = Some w /\
    (owned w /\
     (exists cs, _callback (self w) (seen w) = cs ++ [CStop])) /\
    tasks w = [mkTask 2 Interval 1000] /\
    exists w', fire 2 w = Some w' /\ _state (self w') = STOP /\
               tasks w' = [] /\ log w' = [1; 2].
Proof.
  destruct (run [Do (CStart None); Advance 1000; Fire 1; Advance 1000]
                (new 1000 stops_at_2 0)) as [w|] eqn:E;
    [|vm_compute in E; discriminate].
  exists w. split; [reflexivity|].
  assert (Ew : w = mkWorld (mkTimer 1000 stops_at_2 PInf 1 0 0 1000
                                    (Some 2%nat) PLAY)
                           2000 3 [mkTask 2 Interval 1000] [1]).
  { vm_compute in E. injection E as <-. reflexivity. }
  assert (O : owned w).
  { rewrite Ew. intros t [<-|[]]. reflexivity. }
  assert (Q : exists cs, _callback (self w) (seen w) = cs ++ [CStop]).
  { exists []. rewrite Ew. vm_compute. reflexivity. }
  split; [split; assumption|].
  split; [rewrite Ew; reflexivity|].
  destruct (fire 2 w) as [w'|] eqn:F;
    [|rewrite Ew in F; vm_compute in F; discriminate].
  exists w'. split; [reflexivity|].
  destruct (stop_in_callback 2 w w' O Q F) as (St & Ts & _).
  split; [exact St|]. split; [exact Ts|].
  rewrite (log_fire _ _ _ F), Ew. reflexivity.
Defined.

Lemma play_eq (w : World) :
  gt0 (_maxCount (self w)) = true ->
  play w =
  mkWorld (mkTimer (_delay (self w)) (_callback (self w))
                   (_maxCount (self w)) (_count (self w))
                   (now w - getCurrentTime w) (getCurrentTime w)
                   (_lastTime (self w)) (Some (next_id w)) PLAY)
          (now w) (S (next_id w))
          (tasks (clear (_interval (self w)) w)
           ++ [mkTask (next_id w) Timeout (getRemainingTime w)])
          (log w).
Proof.
  intros G. etransitivity; [apply World_eta|].
  rewrite play_self, play_now, play_next_id, play_tasks, play_log, G.
  reflexivity.
Qed.

(** X10: when the timeout of a running timer fires and the callback calls
    [setDelay], as in the first example of the README, [setDelay] schedules
    a new timeout through [play()], and the handler, finding the timer
    running, then schedules the interval and overwrites the handle: two
    tasks are scheduled and the timer has lost the handle of the timeout.
    [stop()] cancels the interval only, and the timeout still fires and
    invokes the callback on the stopped timer. *)
Theorem setDelay_in_callback_orphans (w : World) (h : nat) (d' r : Z) :
  _callback (self w) = sets_delay d' ->
  _state (self w) = PLAY ->
  tasks w = [mkTask h Timeout r] ->
  gt0 (decr (_maxCount (self w))) = true ->
  exists w1,
    fire h w = Some w1 /\
    _state (self w1) = PLAY /\
    _interval (self w1) = Some (S (next_id w)) /\
    tasks w1 = [mkTask (next_id w) Timeout (Z.max 0 d');
                mkTask (S (next_id w)) Interval d'] /\
    _state (self (stop w1)) = STOP /\
    tasks (stop w1) = [mkTask (next_id w) Timeout (Z.max 0 d')] /\
    exists w2, fire (next_id w) (stop w1) = Some w2 /\
               log w2 = log w ++ [_count (self w) + 1; 1].
Proof.
  intros Ecb St Et G.
  destruct w as [[d cb m c p ct lt i s] nw nid ts lg]. cbn in *.
  subst cb s ts.
  pose proof (gt0_decr _ G) as Gm.
  set (U := mkWorld (mkTimer d' (sets_delay d') m (c + 1) p ct (nw - p) i
                             PLAY) nw nid [] (lg ++ [c + 1])).
  set (W0 := mkWorld (mkTimer d (sets_delay d') m c p ct lt i PLAY)
                     nw nid [] lg).
  assert (Tk : tick W0 = play U) by reflexivity.
  assert (EU : getElapsedTime U = 0).
  { unfold getElapsedTime, getCurrentTime, isRunning, getState. cbn. lia. }
  assert (PU : play U =
               mkWorld (mkTimer d' (sets_delay d') m (c + 1)
                                (nw - getCurrentTime U) (getCurrentTime U)
                                (nw - p) (Some nid) PLAY)
                       nw (S nid) [mkTask nid Timeout (Z.max 0 d')]
                       (lg ++ [c + 1])).
  { rewrite (play_eq U Gm), (getRemainingTime_fresh U EU).
    unfold clear. cbn. destruct i; reflexivity. }
  set (w1 := mkWorld (mkTimer d' (sets_delay d') (decr m) (c + 1)
                              (nw - getCurrentTime U) (getCurrentTime U)
                              (nw - p) (Some (S nid)) PLAY)
                     nw (S (S nid))
                     [mkTask nid Timeout (Z.max 0 d');
                      mkTask (S nid) Interval d']
                     (lg ++ [c + 1])).
  assert (F1 : fire h (mkWorld (mkTimer d (sets_delay d') m c p ct lt i PLAY)
                               nw nid [mkTask h Timeout r] lg) = Some w1).
  { unfold fire, find_task. cbn. rewrite Nat.eqb_refl. cbn.
    unfold clear. cbn. rewrite Nat.eqb_refl. cbn. fold W0.
    unfold on_timeout. rewrite Tk, PU. cbn. rewrite G. reflexivity. }
  assert (Ts : tasks (stop w1) = [mkTask nid Timeout (Z.max 0 d')]).
  { rewrite stop_tasks. unfold clear. cbn.
    rewrite Nat.eqb_refl.
    assert (N : Nat.eqb nid (S nid) = false) by (apply Nat.eqb_neq; lia).
    rewrite N. reflexivity. }
  exists w1. split; [exact F1|].
  do 3 (split; [reflexivity|]).
  split; [rewrite stop_self; reflexivity|]. split; [exact Ts|].
  assert (F2 : exists w2, fire nid (stop w1) = Some w2).
  { unfold fire, find_task. rewrite Ts. cbn. rewrite Nat.eqb_refl. cbn.
    eexists. reflexivity. }
  destruct F2 as [w2 F2]. exists w2. split; [exact F2|].
  rewrite (log_fire _ _ _ F2), stop_log, stop_self. cbn.
  rewrite <- app_assoc. reflexivity.
Qed.

Lemma setDelay_in_callback_orphans_witness :
  let w := start None (new 0 (sets_delay 1000) 0) in
  (_callback (self w) = sets_delay 1000 /\ _state (self w) = PLAY /\
   tasks w = [mkTask 1 Timeout 0] /\
   gt0 (decr (_maxCount (self w))) = true) /\
  exists w1, fire 1 w = Some w1 /\
             tasks w1 = [mkTask 2 Timeout 1000; mkTask 3 Interval 1000].
Proof.
  intros w.
  assert (Ecb : _callback (self w) = sets_delay 1000)
    by (vm_compute; reflexivity).
  assert (St : _state (self w) = PLAY) by (vm_compute; reflexivity).
  assert (Et : tasks w = [mkTask 1 Timeout 0]) by (vm_compute; reflexivity).
  assert (G : gt0 (decr (_maxCount (self w))) = true)
    by (vm_compute; reflexivity).
  split; [repeat split; assumption|].
  destruct (setDelay_in_callback_orphans w 1 1000 0 Ecb St Et G)
    as (w1 & F & _ & _ & T & _).
  exists w1. split; [exact F|]. rewrite T. vm_compute. reflexivity.
Defined.

(** ** Invariants of the schedule *)

Lemma tidy_owned (w : World) : tidy w -> owned w.
Proof.
  unfold tidy, owned, sole_task. destruct (_state (self w)).
  - intros -> t [].
  - intros [_ [t0 [-> E]]] t [<-|[]]. exact E.
  - intros -> t [].
Qed.

Lemma getRemainingTime_range (w : World) :
  if 0 <? _delay (self w)
  then 1 <= getRemainingTime w <= _delay (self w)
  else getRemainingTime w = 0.
Proof.
  destruct (Z.ltb_spec 0 (_delay (self w))) as [Hd|Hd].
  - rewrite (remaining_time_phase_aux w Hd).
    pose proof (Z.mod_pos_bound (getElapsedTime w) _ Hd). lia.
  - unfold getRemainingTime.
    destruct (Z.ltb_spec 0 (_delay (self w))); [lia|reflexivity].
Qed.

Lemma sched_ok_nil (w : World) : tasks w = [] -> sched_ok w.
Proof. unfold sched_ok. intros -> t []. Qed.

Lemma sched_ok_play (w : World) : owned w -> sched_ok (play w).
Proof.
  intros O. unfold sched_ok. rewrite play_tasks, (owned_clear w O).
  destruct (gt0 (_maxCount (self w))) eqn:G; [|intros t []].
  intros t [<-|[]]. cbn. rewrite play_self, G. cbn.
  apply getRemainingTime_range.
Qed.

Lemma sched_ok_exec (c : Call) (w : World) : tidy w -> sched_ok (exec c w).
Proof.
  intros T. pose proof (tidy_owned w T) as O. destruct c; cbn.
  - unfold start. apply sched_ok_play, owned_stop. exact O.
  - apply sched_ok_nil. rewrite stop_tasks. apply owned_clear, O.
  - apply sched_ok_play, O.
  - apply sched_ok_nil. rewrite pause_tasks. apply owned_clear, O.
  - unfold toggle. destruct (isRunning w); [|apply sched_ok_play, O].
    apply sched_ok_nil. rewrite pause_tasks. apply owned_clear, O.
  - unfold setDelay.
    change (isRunning (with_self (set_delay d) w)) with (isRunning w).
    destruct (isRunning w) eqn:Rn; [apply sched_ok_play; exact O|].
    apply sched_ok_nil. cbn. unfold tidy in T.
    unfold isRunning, getState in Rn.
    destruct (_state (self w)); [exact T|discriminate|exact T].
  - unfold once, start. apply sched_ok_play, owned_stop. exact O.
Qed.

(** The schedule and the resting values after a firing with a passive
    callback. *)
Lemma fire_passive_detail (h : nat) (w w' : World) :
  passive w -> tidy w -> fire h w = Some w' ->
  (tasks w' = [] \/ tasks w' = tasks w \/
   tasks w' = [mkTask (next_id w) Interval (_delay (self w))]) /\
  (_state (self w') = STOP ->
   _lastTime (self w') = _currentTime (self w')) /\
  (_count (self w') = 0 \/ _count (self w') = _count (self w) + 1).
Proof.
  intros P T F.
  destruct w as [[d cb m c p ct lt i s] nw nid ts lg].
  unfold passive, tidy, sole_task, fire, find_task in *. cbn in *.
  destruct s; try (subst ts; discriminate).
  destruct T as [G [[th k tm] [Et Ei]]]. cbn in Ei. subst ts i.
  cbn in F. destruct (Nat.eqb_spec th h) as [Eh|]; [|discriminate].
  subst h. destruct k; injection F as <-.
  - unfold clear. cbn. rewrite Nat.eqb_refl. cbn.
    rewrite on_timeout_passive by exact P.
    destruct (gt0 (decr m)) eqn:G'.
    + cbn. split; [right; right; reflexivity|].
      split; [discriminate|right; reflexivity].
    + rewrite stop_eq. unfold clear. cbn.
      split; [left; reflexivity|]. split; [reflexivity|left; reflexivity].
  - rewrite on_interval_passive by exact P.
    rewrite (gt0_decr_le0 _ G).
    destruct (gt0 (decr m)) eqn:G'; cbn.
    + split; [right; left; reflexivity|].
      split; [discriminate|right; reflexivity].
    + rewrite stop_eq. unfold clear. cbn. rewrite Nat.eqb_refl. cbn.
      split; [left; reflexivity|]. split; [reflexivity|left; reflexivity].
Qed.

(** X11: for a timer with integer delays whose callback does not call
    back into the timer, in every reachable state at most one task is
    scheduled, none when the timer is not running, and its wait fits the
    current delay: an interval runs at exactly the delay, a timeout waits
    between [1] ms and the delay, or [0] ms when the delay is not
    positive. *)
Theorem schedule_fits_delay (d t0 : Z) (cb : View -> list Call)
        (w : World) :
  (forall v, cb v = []) -> reachable any_call d cb t0 w ->
  sched_ok w /\ (length (tasks w) <= 1)%nat /\
  (_state (self w) <> PLAY -> tasks w = []).
Proof.
  intros Q R.
  pose proof (tidy_reachable _ _ _ _ _ Q R) as T.
  split; [|split].
  - induction R as [|w w' e R IH Ok S1]; [intros t []|].
    pose proof (tidy_reachable _ _ _ _ _ Q R) as Tw.
    pose proof (passive_reachable _ _ _ _ _ Q R) as Pw.
    specialize (IH Tw).
    destruct e; cbn in S1.
    + injection S1 as <-. exact IH.
    + destruct (fire_passive h w w' Pw Tw S1)
        as (_ & _ & _ & _ & _ & _ & D & _).
      destruct (fire_passive_detail h w w' Pw Tw S1) as ([E|[E|E]] & _).
      * apply sched_ok_nil, E.
      * unfold sched_ok. rewrite E, D. exact IH.
      * unfold sched_ok. rewrite E, D. intros t [<-|[]]. reflexivity.
    + injection S1 as <-. apply sched_ok_exec, Tw.
  - unfold tidy, sole_task in T. destruct (_state (self w)).
    + rewrite T. cbn. lia.
    + destruct T as [_ [t [-> _]]]. cbn. lia.
    + rewrite T. cbn. lia.
  - intros N. unfold tidy in T.
    destruct (_state (self w)); [exact T|contradiction|exact T].
Qed.

Lemma schedule_fits_delay_witness :
  exists w,
    run [Do (CStart None); Advance 1000; Fire 1; Advance 300;
         Do (CSetDelay 700)] (new 1000 quiet 0) = Some w /\
    ((forall v, quiet v = []) /\ reachable any_call 1000 quiet 0 w) /\
    sched_ok w /\ tasks w = [mkTask 3 Timeout 400].
Proof.
  destruct (run [Do (CStart None); Advance 1000; Fire 1; Advance 300;
                 Do (CSetDelay 700)] (new 1000 quiet 0)) as [w|] eqn:E;
    [|vm_compute in E; discriminate].
  exists w. split; [reflexivity|].
  assert (Q : forall v, quiet v = []) by reflexivity.
  assert (R : reachable any_call 1000 quiet 0 w).
  { apply (reachable_run any_call 1000 quiet 0 _ _ w
                         (reach_new _ _ _ _)) in E; [exact E|].
    repeat constructor. }
  split; [split; assumption|].
  destruct (schedule_fits_delay 1000 0 quiet w Q R) as (S & _).
  split; [exact S|].
  vm_compute in E. injection E as <-. reflexivity.
Defined.

Lemma at_rest_exec (c : Call) (w : World) : at_rest w -> at_rest (exec c w).
Proof.
  assert (Hs : forall u, at_rest (stop u)).
  { intros u _. rewrite stop_self. cbn. repeat split. }
  assert (Hp : forall u, at_rest (play u)).
  { intros u. unfold at_rest. rewrite play_self.
    destruct (gt0 _); [cbn; discriminate|apply Hs]. }
  assert (Hq : forall u, at_rest (pause u)).
  { intros u. unfold at_rest. rewrite pause_self. cbn. discriminate. }
  intros A. destruct c; cbn.
  - apply Hp.
  - apply Hs.
  - apply Hp.
  - apply Hq.
  - unfold toggle. destruct (isRunning w); [apply Hq|apply Hp].
  - unfold setDelay. destruct (isRunning _); [apply Hp|exact A].
  - apply Hp.
Qed.

(** X12: for a timer whose callback does not call back into the timer,
    in every reachable state the count is not negative, and a stopped
    timer reads [getCount() = 0] and [getElapsedTime() = 0], and keeps
    reading them while the clock moves on. *)
Theorem stopped_timer_at_rest (d t0 : Z) (cb : View -> list Call)
        (w : World) :
  (forall v, cb v = []) -> reachable any_call d cb t0 w ->
  0 <= getCount w /\
  (_state (self w) = STOP ->
   getCount w = 0 /\ _pausedTime (self w) = 0 /\
   forall dt, getElapsedTime (advance dt w) = 0).
Proof.
  intros Q R.
  assert (A : at_rest w /\ 0 <= _count (self w)).
  { induction R as [|w w' e R IH Ok S1].
    - split; [intros _; cbn; repeat split|cbn; lia].
    - pose proof (tidy_reachable _ _ _ _ _ Q R) as Tw.
      pose proof (passive_reachable _ _ _ _ _ Q R) as Pw.
      destruct IH as [Aw Cw]. destruct e; cbn in S1.
      + injection S1 as <-. split; assumption.
      + destruct (fire_passive h w w' Pw Tw S1)
          as (_ & _ & _ & _ & _ & _ & _ & Pt & Run).
        destruct (fire_passive_detail h w w' Pw Tw S1) as (_ & L & C).
        split; [|lia]. intros St.
        destruct (gt0 (_maxCount (self w'))).
        * destruct Run as [St' _]. congruence.
        * destruct Run as (_ & C0 & _). auto.
      + injection S1 as <-. split; [apply at_rest_exec, Aw|].
        assert (Hs : forall u, _count (self (stop u)) = 0)
          by (intros u; rewrite stop_self; reflexivity).
        assert (Hp : forall u, 0 <= _count (self u) ->
                               0 <= _count (self (play u))).
        { intros u Hu. rewrite play_self.
          destruct (gt0 _); [exact Hu|rewrite Hs; lia]. }
        destruct c; cbn.
        * unfold start. apply Hp. rewrite Hs. lia.
        * rewrite Hs. lia.
        * apply Hp, Cw.
        * rewrite pause_self. exact Cw.
        * unfold toggle. destruct (isRunning w); [|apply Hp, Cw].
          rewrite pause_self. exact Cw.
        * unfold setDelay. destruct (isRunning _); [apply Hp|]; exact Cw.
        * unfold once, start. apply Hp. rewrite Hs. lia. }
  destruct A as [A C]. split; [exact C|].
  intros St. destruct (A St) as (C0 & P0 & L0).
  split; [exact C0|]. split; [exact P0|].
  intros dt. unfold getElapsedTime, getCurrentTime, isRunning, getState.
  cbn. rewrite St. cbn. lia.
Qed.

Lemma stopped_timer_at_rest_witness :
  exists w,
    run [Do (CStart (Some (Fin 2))); Advance 1000; Fire 1; Advance 1000;
         Fire 2] (new 1000 quiet 0) = Some w /\
    ((forall v, quiet v = []) /\ reachable any_call 1000 quiet 0 w /\
     _state (self w) = STOP) /\
    getCount w = 0 /\ getElapsedTime (advance 5000 w) = 0.
Proof.
  destruct (run [Do (CStart (Some (Fin 2))); Advance 1000; Fire 1;
                 Advance 1000; Fire 2] (new 1000 quiet 0)) as [w|] eqn:E;
    [|vm_compute in E; discriminate].
  exists w. split; [reflexivity|].
  assert (Q : forall v, quiet v = []) by reflexivity.
  assert (R : reachable any_call 1000 quiet 0 w).
  { apply (reachable_run any_call 1000 quiet 0 _ _ w
                         (reach_new _ _ _ _)) in E; [exact E|].
    repeat constructor. }
  assert (St : _state (self w) = STOP).
  { vm_compute in E. injection E as <-. reflexivity. }
  split; [repeat split; assumption|].
  destruct (stopped_timer_at_rest 1000 0 quiet w Q R) as (_ & B).
  destruct (B St) as (C0 & _ & E0).
  split; [exact C0|apply E0].
Defined.

(** ** Stopping does not give the fires back *)

(** X13: [stop()] resets the count but not the number of fires left: when
    a timer with a passive callback and [m > 0] fires left is stopped and
    then resumed with [play()], it fires [m] more times, the callback
    counting again from [1], and then stops. *)
Theorem stop_keeps_fires_left (w : World) (dts : list Z) :
  passive w -> tidy w -> dts <> [] ->
  _maxCount (self w) = Fin (Z.of_nat (length dts)) ->
  _state (self (play (stop w))) = PLAY /\
  exists w', fires dts (play (stop w)) = Some w' /\
             _state (self w') = STOP /\ tasks w' = [] /\
             log w' = log w ++ counts_from 0 (length dts).
Proof.
  intros P T Ne M.
  assert (G : gt0 (_maxCount (self (stop w))) = true).
  { rewrite stop_self. cbn. rewrite M. cbn. apply Z.ltb_lt.
    destruct dts; [contradiction|cbn; lia]. }
  assert (S0 : _state (self (play (stop w))) = PLAY)
    by (rewrite state_play, G; reflexivity).
  split; [exact S0|].
  assert (P0 : passive (play (stop w))).
  { intros v. rewrite callback_play, callback_stop. apply P. }
  assert (T0 : tidy (play (stop w))) by (apply tidy_play, tidy_stop, T).
  assert (M0 : _maxCount (self (play (stop w)))
               = Fin (Z.of_nat (length dts))).
  { rewrite play_self, G. cbn. rewrite stop_self. exact M. }
  destruct (fires_exhaust dts Ne _ P0 T0 S0 M0)
    as (w' & F & S' & E' & _ & _ & L').
  exists w'. repeat split; try assumption.
  rewrite L', play_log, stop_log, play_self, G. cbn.
  rewrite stop_self. reflexivity.
Qed.

Lemma stop_keeps_fires_left_witness :
  exists w,
    fires [1000; 1000; 1000] (start (Some (Fin 5)) (new 1000 quiet 0))
    = Some w /\
    (passive w /\ tidy w /\ _maxCount (self w) = Fin 2) /\
    exists w', fires [1000; 1000] (play (stop w)) = Some w' /\
               _state (self w') = STOP /\ log w' = [1; 2; 3; 1; 2].
Proof.
  destruct (fires [1000; 1000; 1000]
                  (start (Some (Fin 5)) (new 1000 quiet 0)))
    as [w|] eqn:E; [|vm_compute in E; discriminate].
  exists w. split; [reflexivity|].
  assert (Ew : w = mkWorld (mkTimer 1000 quiet (Fin 2) 3 0 0 3000 (Some 2%nat)
                                    PLAY) 3000 3 [mkTask 2 Interval 1000]
                           [1; 2; 3]).
  { vm_compute in E. injection E as <-. reflexivity. }
  assert (P : passive w) by (rewrite Ew; intros v; reflexivity).
  assert (T : tidy w).
  { rewrite Ew. split; [reflexivity|]. eexists. split; reflexivity. }
  assert (M : _maxCount (self w) = Fin (Z.of_nat (length [1000; 1000])))
    by (rewrite Ew; reflexivity).
  split; [repeat split; assumption|].
  destruct (stop_keeps_fires_left w [1000; 1000] P T ltac:(discriminate) M)
    as (_ & w' & F & S' & _ & L').
  exists w'. split; [exact F|]. split; [exact S'|].
  rewrite L', Ew. reflexivity.
Defined.

(** ** Playing a running timer *)

(** X14: [play()] on a running timer with fires left changes nothing the
    getters can see: count, delay and state are the same, and the
    current, elapsed and remaining time read, at the end of the call, what
    they read when it was entered, because [_pausedTime] takes up the
    time by which the clock moved between the two reads [play()] makes of
    it (nothing when the clock did not move); [_lastTime] and [_maxCount]
    are the same; the timer's task is replaced by a timeout after the
    remaining time, under a new handle. *)
Theorem play_while_running (w : World) (t2 : Z) :
  _state (self w) = PLAY -> gt0 (_maxCount (self w)) = true ->
  view (play_at t2 w) = view w /\
  _pausedTime (self (play_at t2 w)) = _pausedTime (self w) + (t2 - now w) /\
  _lastTime (self (play_at t2 w)) = _lastTime (self w) /\
  _maxCount (self (play_at t2 w)) = _maxCount (self w) /\
  _interval (self (play_at t2 w)) = Some (next_id w) /\
  tasks (play_at t2 w) = tasks (clear (_interval (self w)) w)
                         ++ [mkTask (next_id w) Timeout (getRemainingTime w)]
  /\ play_at (now w) w = play w.
Proof.
  intros St G.
  pose proof (play_at_getCurrentTime t2 w G) as C.
  pose proof (play_at_getElapsedTime t2 w G) as E.
  assert (D : _delay (self (play_at t2 w)) = _delay (self w))
    by (rewrite play_at_self, G; reflexivity).
  assert (Rm : getRemainingTime (play_at t2 w) = getRemainingTime w)
    by (unfold getRemainingTime; rewrite E, D; reflexivity).
  split.
  { unfold view, getCount, getDelay, getState. rewrite C, E, Rm, D.
    rewrite play_at_self, G. cbn. rewrite St. reflexivity. }
  split; [rewrite play_at_pausedTime, G, St; reflexivity|].
  rewrite play_at_tasks, play_tasks, play_at_self, G. cbn.
  do 4 (split; [reflexivity|]). apply play_at_same.
Qed.

Lemma play_while_running_witness :
  let w := advance 300 (start None (new 1000 quiet 0)) in
  (_state (self w) = PLAY /\ gt0 (_maxCount (self w)) = true) /\
  view (play_at 302 w) = view w /\
  _pausedTime (self (play_at 302 w)) = 2 /\
  tasks (play_at 302 w) = [mkTask 2 Timeout 700].
Proof.
  intros w.
  assert (St : _state (self w) = PLAY) by reflexivity.
  assert (G : gt0 (_maxCount (self w)) = true) by reflexivity.
  split; [split; assumption|].
  destruct (play_while_running w 302 St G) as (V & P & _ & _ & _ & T & _).
  split; [exact V|]. split; [rewrite P; vm_compute; reflexivity|].
  rewrite T. vm_compute. reflexivity.
Defined.

(** ** Pausing from inside the callback *)

(** X15: when the only thing the callback does at a firing is
    [this.pause()], the two handlers differ.  The timeout handler finds
    the timer not running and leaves it paused without counting the
    firing against the fires left.  The interval handler decrements the
    fires left all the same, and when none are left it stops the timer
    although the callback had paused it. *)
Theorem pause_in_callback (h : nat) (w w' : World) (t : Task) :
  _callback (self w) (seen w) = [CPause] ->
  _state (self w) = PLAY -> tasks w = [t] ->
  _interval (self w) = Some (tid t) ->
  fire h w = Some w' ->
  tasks w' = [] /\
  match kind t with
  | Timeout =>
      _state (self w') = PAUSE /\
      _maxCount (self w') = _maxCount (self w) /\
      getCount w' = getCount w + 1
  | Interval =>
      _maxCount (self w') = decr (_maxCount (self w)) /\
      if le0 (decr (_maxCount (self w)))
      then _state (self w') = STOP /\ getCount w' = 0
      else _state (self w') = PAUSE /\ getCount w' = getCount w + 1
  end.
Proof.
  intros Q St Et Ei F.
  destruct w as [[d cb m c p ct lt i s] nw nid ts lg].
  destruct t as [th k tm]. cbn in St, Et, Ei, F. subst s ts i.
  unfold fire, find_task in F. cbn in F.
  destruct (Nat.eqb_spec th h) as [Eh|]; [|discriminate]. subst h.
  assert (Tk : forall ts',
             tick (mkWorld (mkTimer d cb m c p ct lt (Some th) PLAY)
                           nw nid ts' lg)
             = pause (mkWorld (mkTimer d cb m (c + 1) p ct (nw - p)
                                       (Some th) PLAY)
                              nw nid ts' (lg ++ [c + 1]))).
  { intros ts'. unfold tick, invoke.
    set (w1 := with_self (set_count _) (with_self (set_lastTime _) _)).
    change (_callback (self w1) (view w1))
      with (_callback
              (self (mkWorld (mkTimer d cb m c p ct lt (Some th) PLAY)
                             nw nid [mkTask th k tm] lg))
              (seen (mkWorld (mkTimer d cb m c p ct lt (Some th) PLAY)
                             nw nid [mkTask th k tm] lg))).
    rewrite Q. reflexivity. }
  destruct k; injection F as <-.
  - unfold clear. cbn. rewrite Nat.eqb_refl. cbn.
    unfold on_timeout. rewrite Tk, pause_eq. cbn.
    repeat split.
  - unfold on_interval. rewrite Tk, pause_eq. unfold clear. cbn.
    rewrite Nat.eqb_refl. cbn.
    destruct (le0 (decr m)).
    + rewrite stop_eq. unfold clear. cbn. repeat split.
    + cbn. repeat split.
Qed.

Lemma pause_in_callback_witness :
  (exists w,
     run [Do (CStart (Some (Fin 2))); Advance 1000; Fire 1; Advance 1000]
         (new 1000 pauses_at_2 0) = Some w /\
     (_callback (self w) (seen w) = [CPause] /\
      _state (self w) = PLAY /\ tasks w = [mkTask 2 Interval 1000] /\
      _interval (self w) = Some 2%nat) /\
     exists w', fire 2 w = Some w' /\ _state (self w') = STOP /\
                _maxCount (self w') = Fin 0 /\ log w' = [1; 2]) /\
  (exists w,
     run [Do (CStart (Some (Fin 2))); Advance 1000; Fire 1; Advance 300;
          Do CPause; Advance 50; Do CPlay; Advance 700]
         (new 1000 pauses_at_2 0) = Some w /\
     (_callback (self w) (seen w) = [CPause] /\
      _state (self w) = PLAY /\ tasks w = [mkTask 3 Timeout 700] /\
      _interval (self w) = Some 3%nat) /\
     exists w', fire 3 w = Some w' /\ _state (self w') = PAUSE /\
                _maxCount (self w') = Fin 1 /\ log w' = [1; 2]).
Proof.
  split.
  - destruct (run [Do (CStart (Some (Fin 2))); Advance 1000; Fire 1;
                   Advance 1000] (new 1000 pauses_at_2 0)) as [w|] eqn:E;
      [|vm_compute in E; discriminate].
    exists w. split; [reflexivity|].
    assert (Ew : w = mkWorld (mkTimer 1000 pauses_at_2 (Fin 1) 1 0 0 1000
                                      (Some 2%nat) PLAY)
                             2000 3 [mkTask 2 Interval 1000] [1]).
    { vm_compute in E. injection E as <-. reflexivity. }
    assert (Q : _callback (self w) (seen w) = [CPause])
      by (rewrite Ew; vm_compute; reflexivity).
    assert (St : _state (self w) = PLAY) by (rewrite Ew; reflexivity).
    assert (Et : tasks w = [mkTask 2 Interval 1000])
      by (rewrite Ew; reflexivity).
    assert (Ei : _interval (self w) = Some 2%nat)
      by (rewrite Ew; reflexivity).
    split; [repeat split; assumption|].
    destruct (fire 2 w) as [w'|] eqn:F;
      [|rewrite Ew in F; vm_compute in F; discriminate].
    exists w'. split; [reflexivity|].
    destruct (pause_in_callback 2 w w' _ Q St Et Ei F) as (_ & M' & L').
    cbn in M', L'. rewrite Ew in M', L'. cbn in L'.
    destruct L' as [S' _].
    split; [exact S'|]. split; [exact M'|].
    rewrite (log_fire _ _ _ F), Ew. reflexivity.
  - destruct (run [Do (CStart (Some (Fin 2))); Advance 1000; Fire 1;
                   Advance 300; Do CPause; Advance 50; Do CPlay;
                   Advance 700] (new 1000 pauses_at_2 0)) as [w|] eqn:E;
      [|vm_compute in E; discriminate].
    exists w. split; [reflexivity|].
    assert (Ew : w = mkWorld (mkTimer 1000 pauses_at_2 (Fin 1) 1 50 1300 1000
                                      (Some 3%nat) PLAY)
                             2050 4 [mkTask 3 Timeout 700] [1]).
    { vm_compute in E. injection E as <-. reflexivity. }
    assert (Q : _callback (self w) (seen w) = [CPause])
      by (rewrite Ew; vm_compute; reflexivity).
    assert (St : _state (self w) = PLAY) by (rewrite Ew; reflexivity).
    assert (Et : tasks w = [mkTask 3 Timeout 700])
      by (rewrite Ew; reflexivity).
    assert (Ei : _interval (self w) = Some 3%nat)
      by (rewrite Ew; reflexivity).
    split; [repeat split; assumption|].
    destruct (fire 3 w) as [w'|] eqn:F;
      [|rewrite Ew in F; vm_compute in F; discriminate].
    exists w'. split; [reflexivity|].
    destruct (pause_in_callback 3 w w' _ Q St Et Ei F) as (_ & S' & M' & _).
    split; [exact S'|]. split; [rewrite M', Ew; reflexivity|].
    rewrite (log_fire _ _ _ F), Ew. reflexivity.
Defined.
